(** * Gerenciador de Tarefas: the task store and its lifecycle

    A shallow embedding of [Lista de Tarefas.py].  The three module
    globals ([TASKS], [ARCHIVED_TASKS], [ID_COUNTER]) become one record
    that every operation takes and returns; what an operation prints is
    returned next to the new state as a value of type [saida].

    Conventions of the model.
    - A Python [str] is the list of its code points.  Literals are written
      as Rocq strings and decoded from UTF-8 by [u].
    - Case mapping ([capitalize], [title], [lower]) follows the Unicode
      tables for U+0000..U+00FF, which covers the Portuguese alphabet;
      code points above U+00FF are left as they are and count as caseless.
      [capitalize] puts the first code point in title case, as Python does
      from 3.8 on.
    - A task is a dict with the eight keys the program writes.  [id] is an
      integer, the two dates are a string or [None], the rest are strings.
    - Timestamps are naive, as [agora_iso] writes them.  A [datetime] keeps
      its calendar fields; comparison and subtraction go through the
      microsecond ordinal [dt_us], which is how naive datetime arithmetic
      is defined.  The parser of the standard library is an interface
      ([IsoParser]) with one concrete instance for the layout that
      [isoformat] produces.
    - A task object is identified by its position in [TASKS]: the functions
      that hand out a task to be mutated return that position. *)

From Stdlib Require Import ZArith String Ascii Lia.
From stdpp Require Import base decidable option numbers list.

#[local] Open Scope Z_scope.

(** ** Python strings *)

Abbreviation str := (list N).

(** UTF-8 decoding of a literal (one to four bytes per code point). *)
Fixpoint utf8_decode (bs : list N) : str :=
  match bs with
  | [] => []
  | b0 :: r0 =>
      if (b0 <? 0x80)%N then b0 :: utf8_decode r0
      else match r0 with
        | [] => [b0]
        | b1 :: r1 =>
            if (b0 <? 0xE0)%N
            then ((b0 mod 0x20) * 0x40 + b1 mod 0x40)%N :: utf8_decode r1
            else match r1 with
              | [] => [b0; b1]
              | b2 :: r2 =>
                  if (b0 <? 0xF0)%N
                  then (((b0 mod 0x10) * 0x40 + b1 mod 0x40) * 0x40
                        + b2 mod 0x40)%N :: utf8_decode r2
                  else match r2 with
                    | [] => [b0; b1; b2]
                    | b3 :: r3 =>
                        ((((b0 mod 0x08) * 0x40 + b1 mod 0x40) * 0x40
                          + b2 mod 0x40) * 0x40 + b3 mod 0x40)%N
                        :: utf8_decode r3
                    end
              end
        end
  end.

Definition u (s : string) : str :=
  utf8_decode (List.map N_of_ascii (list_ascii_of_string s)).

(** [str.isspace] for one code point, the set [str.strip()] removes. *)
Definition isspace (c : N) : bool :=
  ((0x09 <=? c) && (c <=? 0x0D) || (0x1C <=? c) && (c <=? 0x20)
   || (c =? 0x85) || (c =? 0xA0) || (c =? 0x1680)
   || (0x2000 <=? c) && (c <=? 0x200A)
   || (c =? 0x2028) || (c =? 0x2029) || (c =? 0x202F)
   || (c =? 0x205F) || (c =? 0x3000))%N.

Fixpoint lstrip (s : str) : str :=
  match s with
  | c :: r => if isspace c then lstrip r else s
  | [] => []
  end.

Definition rstrip (s : str) : str := rev (lstrip (rev s)).

Definition strip (s : str) : str := rstrip (lstrip s).

(** Letters of U+0000..U+00FF with an upper and a lower form inside that
    range: A-Z, and U+00C0..U+00DE without the multiplication sign. *)
Definition is_upper_l1 (c : N) : bool :=
  ((0x41 <=? c) && (c <=? 0x5A)
   || (0xC0 <=? c) && (c <=? 0xDE) && negb (c =? 0xD7))%N.

Definition is_lower_l1 (c : N) : bool :=
  ((0x61 <=? c) && (c <=? 0x7A)
   || (0xE0 <=? c) && (c <=? 0xFE) && negb (c =? 0xF7))%N.

(** Full lower-case mapping of one code point. *)
Definition lower_cp (c : N) : str :=
  if is_upper_l1 c then [(c + 0x20)%N] else [c].

(** Full title-case mapping of one code point: the micro sign, the sharp s
    and y with diaeresis leave the range or expand. *)
Definition title_cp (c : N) : str :=
  if is_lower_l1 c then [(c - 0x20)%N]
  else if (c =? 0xB5)%N then [0x39C%N]
  else if (c =? 0xDF)%N then [0x53%N; 0x73%N]
  else if (c =? 0xFF)%N then [0x178%N]
  else [c].

(** The Cased property. *)
Definition is_cased (c : N) : bool :=
  (is_upper_l1 c || is_lower_l1 c
   || (c =? 0xAA) || (c =? 0xB5) || (c =? 0xBA) || (c =? 0xDF) || (c =? 0xFF))%N.

Definition lower (s : str) : str := flat_map lower_cp s.

(** [str.capitalize]: first code point to title case, the rest to lower. *)
Definition capitalize (s : str) : str :=
  match s with
  | [] => []
  | c :: r => title_cp c ++ lower r
  end.

(** [str.title]: title case after an uncased code point, lower case after a
    cased one. *)
Fixpoint title_from (previous_is_cased : bool) (s : str) : str :=
  match s with
  | [] => []
  | c :: r =>
      (if previous_is_cased then lower_cp c else title_cp c)
        ++ title_from (is_cased c) r
  end.

Definition title (s : str) : str := title_from false s.

(** ** Constants of the program *)

Definition PRIORITIES : list str :=
  [u "Urgente"; u "Alta"; u "Média"; u "Baixa"].

Definition PRIORITY_ORDER : list str := PRIORITIES.

Definition ORIGENS : list str :=
  [u "E-mail"; u "Telefone"; u "Chamado do Sistema"].

Definition Pendente : str := u "Pendente".
Definition Fazendo : str := u "Fazendo".
Definition Concluida : str := u "Concluída".
Definition Excluida : str := u "Excluída".

(** ** Validation *)

Definition validar_prioridade (prio : str) : bool :=
  bool_decide (capitalize prio ∈ PRIORITIES).

Definition validar_origem (orig : str) : bool :=
  let valid := ORIGENS in
  bool_decide (capitalize orig ∈ map capitalize valid).

(** ** Naive datetimes *)

Record datetime := mk_datetime {
  year : Z; month : Z; day : Z;
  hour : Z; minute : Z; second : Z; microsecond : Z
}.

Record timedelta := mk_timedelta {
  days : Z; seconds : Z; microseconds : Z
}.

Definition is_leap (y : Z) : bool :=
  (y mod 4 =? 0) && (negb (y mod 100 =? 0) || (y mod 400 =? 0)).

Definition days_before_year (y : Z) : Z :=
  let y' := y - 1 in y' * 365 + y' / 4 - y' / 100 + y' / 400.

Definition days_in_month (y m : Z) : Z :=
  if m =? 2 then (if is_leap y then 29 else 28)
  else if (m =? 4) || (m =? 6) || (m =? 9) || (m =? 11) then 30
  else 31.

Definition DAYS_BEFORE_MONTH : list Z :=
  [0; 31; 59; 90; 120; 151; 181; 212; 243; 273; 304; 334].

Definition days_before_month (y m : Z) : Z :=
  default 0 (DAYS_BEFORE_MONTH !! Z.to_nat (m - 1))
  + (if (2 <? m) && is_leap y then 1 else 0).

Definition ymd2ord (y m d : Z) : Z :=
  days_before_year y + days_before_month y m + d.

Definition toordinal (d : datetime) : Z := ymd2ord (year d) (month d) (day d).

(** Microseconds since the start of day 0 of the proleptic calendar. *)
Definition dt_us (d : datetime) : Z :=
  (((toordinal d * 24 + hour d) * 60 + minute d) * 60 + second d) * 1000000
  + microsecond d.

Definition dia_us : Z := 86400 * 1000000.

(** The constructor of [timedelta] normalises: [0 <= microseconds < 10^6]
    and [0 <= seconds < 86400], the sign lives in [days]. *)
Definition timedelta_of_us (n : Z) : timedelta :=
  {| days := n / dia_us;
     seconds := (n mod dia_us) / 1000000;
     microseconds := n mod 1000000 |}.

(** [a - b] on two naive datetimes. *)
Definition dt_sub (a b : datetime) : timedelta :=
  timedelta_of_us (dt_us a - dt_us b).

Definition divmod (a b : Z) : Z * Z := (a / b, a mod b).

(** [isoformat]: zero-padded fields, the fraction only when it is not 0. *)
Fixpoint zfill (width : nat) (n : Z) : str :=
  match width with
  | O => []
  | S w => zfill w (n / 10) ++ [Z.to_N (48 + n mod 10)]
  end.

Definition isoformat (d : datetime) : str :=
  zfill 4 (year d) ++ u "-" ++ zfill 2 (month d) ++ u "-" ++ zfill 2 (day d)
  ++ u "T" ++ zfill 2 (hour d) ++ u ":" ++ zfill 2 (minute d) ++ u ":"
  ++ zfill 2 (second d)
  ++ (if microsecond d =? 0 then [] else u "." ++ zfill 6 (microsecond d)).

(** The field ranges of a [datetime] object. *)
Definition valid_datetime (d : datetime) : bool :=
  (1 <=? year d) && (year d <=? 9999) && (1 <=? month d) && (month d <=? 12)
  && (1 <=? day d) && (day d <=? days_in_month (year d) (month d))
  && (0 <=? hour d) && (hour d <? 24) && (0 <=? minute d) && (minute d <? 60)
  && (0 <=? second d) && (second d <? 60)
  && (0 <=? microsecond d) && (microsecond d <? 1000000).

(** The parser of the standard library, as far as the program relies on
    it: a partial function on strings that rejects the empty string and
    reads back what [isoformat] writes. *)
Class IsoParser := {
  fromisoformat : str → option datetime;
  fromisoformat_empty : fromisoformat [] = None;
  fromisoformat_isoformat d :
    valid_datetime d = true → fromisoformat (isoformat d) = Some d
}.

(** The value of a decimal digit. *)
Definition digit (c : N) : option Z :=
  if ((48 <=? c) && (c <=? 57))%N then Some (Z.of_N c - 48) else None.

(** The number written by a string of decimal digits, after [acc]. *)
Fixpoint number (acc : Z) (cs : str) : option Z :=
  match cs with
  | [] => Some acc
  | c :: r => match digit c with
              | Some d => number (acc * 10 + d) r
              | None => None
              end
  end.

(** A parser for the layout [isoformat] writes,
    [YYYY-MM-DDTHH:MM:SS] with an optional [.ffffff]. *)
Definition fromisoformat_basic (s : str) : option datetime :=
  let campo (i n : nat) := number 0 (take n (drop i s)) in
  let sep (i : nat) (c : str) := bool_decide (take 1 (drop i s) = c) in
  if sep 4%nat (u "-") && sep 7%nat (u "-") && sep 10%nat (u "T")
     && sep 13%nat (u ":") && sep 16%nat (u ":") then
    y ← campo 0%nat 4%nat; m ← campo 5%nat 2%nat; d ← campo 8%nat 2%nat;
    hh ← campo 11%nat 2%nat; mm ← campo 14%nat 2%nat; ss ← campo 17%nat 2%nat;
    us ← (if bool_decide (length s = 19%nat) then Some 0
          else if bool_decide (length s = 26%nat) && sep 19%nat (u ".")
               then campo 20%nat 6%nat else None);
    let r := mk_datetime y m d hh mm ss us in
    if valid_datetime r then Some r else None
  else None.

(** ** Tasks and the store *)

Record tarefa := mk_tarefa {
  id : Z;
  titulo : str;
  descricao : str;
  prioridade : str;
  status : str;
  origem : str;
  data_criacao : option str;
  data_conclusao : option str
}.

#[export] Instance datetime_eq_dec : EqDecision datetime.
Proof. solve_decision. Defined.

#[export] Instance tarefa_eq_dec : EqDecision tarefa.
Proof. solve_decision. Defined.

Definition set_prioridade (v : str) (t : tarefa) : tarefa :=
  mk_tarefa (id t) (titulo t) (descricao t) v (status t) (origem t)
            (data_criacao t) (data_conclusao t).

Definition set_status (v : str) (t : tarefa) : tarefa :=
  mk_tarefa (id t) (titulo t) (descricao t) (prioridade t) v (origem t)
            (data_criacao t) (data_conclusao t).

Definition set_data_conclusao (v : option str) (t : tarefa) : tarefa :=
  mk_tarefa (id t) (titulo t) (descricao t) (prioridade t) (status t)
            (origem t) (data_criacao t) v.

Record estado := mk_estado {
  TASKS : list tarefa;
  ARCHIVED_TASKS : list tarefa;
  ID_COUNTER : Z
}.

Definition set_TASKS (l : list tarefa) (st : estado) : estado :=
  mk_estado l (ARCHIVED_TASKS st) (ID_COUNTER st).

(** Truth value of [t.get(key)] for a value that is a string or [None]. *)
Definition truthy (v : option str) : bool :=
  match v with
  | Some (_ :: _) => true
  | _ => false
  end.

(** A list with the position of each element, the identity of the object
    stored there. *)
Fixpoint enumerate_from {A} (k : nat) (l : list A) : list (nat * A) :=
  match l with
  | [] => []
  | x :: r => (k, x) :: enumerate_from (S k) r
  end.

Definition enumerate {A} (l : list A) : list (nat * A) := enumerate_from 0 l.

(** What [mostrar_detalhes_tarefa] displays: the fields of the task and,
    when it can be computed, the execution time as
    (dias, horas, minutos, segundos). *)
Record detalhes := mk_detalhes {
  exibida : tarefa;
  tempo_de_execucao : option (Z * Z * Z * Z)
}.

Inductive saida :=
  | TituloObrigatorio
  | PrioridadeInvalida
  | OrigemInvalida
  | TarefaCriada (novo_id : Z)
  | NaoHaPendentes
  | TarefaSelecionada (d : detalhes)
  | IdInvalido
  | NaoEncontrada
  | PrioridadeAlterada (tid : Z) (nova : str)
  | JaConcluida
  | TarefaConcluida (tid : Z) (data : str)
  | NadaParaArquivar
  | Arquivadas (n : nat)
  | TarefaExcluida (tid : Z)
  | NenhumaTarefaAtiva
  | NenhumaArquivada
  | Relatorio (l : list detalhes)
  | DadosSalvos.

(** ** Persistence and utilities *)

Definition maior_id (l : list tarefa) : Z :=
  fold_left (λ max_id t, if max_id <? id t then id t else max_id) l 0.

(** [carregar_dados], given the two arrays read from disk. *)
Definition carregar_dados (tasks archived : list tarefa) : estado :=
  {| TASKS := tasks; ARCHIVED_TASKS := archived;
     ID_COUNTER := maior_id (tasks ++ archived) + 1 |}.

Definition gerar_id (st : estado) : Z * estado :=
  let current := ID_COUNTER st in
  (current, mk_estado (TASKS st) (ARCHIVED_TASKS st) (ID_COUNTER st + 1)).

Definition agora_iso (agora : datetime) : str := isoformat agora.

#[global] Arguments u : simpl never.
#[global] Arguments isoformat : simpl never.
#[global] Arguments agora_iso : simpl never.
#[global] Arguments strip : simpl never.
#[global] Arguments title : simpl never.
#[global] Arguments dt_us : simpl never.

Section Operacoes.
Context `{IsoParser}.

Definition parse_iso (dt_str : option str) : option datetime :=
  match dt_str with
  | Some s => fromisoformat s
  | None => None
  end.

(** ** Main operations *)

(** Lines 184-187: the origin as it is stored, from the stripped input. *)
Definition origem_normalizada (origem : str) : str :=
  let origem_norm := title origem in
  if bool_decide (lower origem_norm ∈
       [u "chamado"; u "chamadodosistema"; u "chamado do sistema"])
  then u "Chamado do Sistema" else origem_norm.

Definition criar_tarefa (agora : datetime)
    (in_titulo in_descricao in_prioridade in_origem : str) (st : estado)
  : estado * saida :=
  let titulo := strip in_titulo in
  if bool_decide (titulo = []) then (st, TituloObrigatorio) else
  let descricao := strip in_descricao in
  let prioridade := capitalize (strip in_prioridade) in
  if negb (validar_prioridade prioridade) then (st, PrioridadeInvalida) else
  let origem := strip in_origem in
  let origem_norm := origem_normalizada origem in
  if negb (validar_origem origem_norm) then (st, OrigemInvalida) else
  let '(novo, st1) := gerar_id st in
  let tarefa :=
    {| id := novo; titulo := titulo; descricao := descricao;
       prioridade := prioridade; status := Pendente; origem := origem_norm;
       data_criacao := Some (agora_iso agora); data_conclusao := None |} in
  (set_TASKS (TASKS st1 ++ [tarefa]) st1, TarefaCriada novo).

Definition encontrar_tarefa_por_id (tasks : list tarefa) (tid : Z)
  : option (nat * tarefa) :=
  list_find (λ t, id t = tid) tasks.

(** Lines 377-387 of [mostrar_detalhes_tarefa]. *)
Definition tempo_execucao (t : tarefa) : option (Z * Z * Z * Z) :=
  if truthy (data_conclusao t) then
    match parse_iso (data_criacao t), parse_iso (data_conclusao t) with
    | Some dt_inicio, Some dt_fim =>
        let dur := dt_sub dt_fim dt_inicio in
        let dias := days dur in
        let '(horas, resto) := divmod (seconds dur) 3600 in
        let '(minutos, segundos) := divmod resto 60 in
        Some (dias, horas, minutos, segundos)
    | _, _ => None
    end
  else None.

Definition mostrar_detalhes_tarefa (t : tarefa) : detalhes :=
  {| exibida := t; tempo_de_execucao := tempo_execucao t |}.

(** The two nested loops of [verificar_urgencia]: for each priority in
    order, the first pending task that has it. *)
Fixpoint primeira_por_prioridade (ordem : list str)
    (pendentes : list (nat * tarefa)) : option (nat * tarefa) :=
  match ordem with
  | [] => None
  | pr :: ordem' =>
      match head (filter (λ it, prioridade it.2 = pr) pendentes) with
      | Some it => Some it
      | None => primeira_por_prioridade ordem' pendentes
      end
  end.

(** Line 233: the pending tasks, each with its position in [TASKS]. *)
Definition pendentes_de (tasks : list tarefa) : list (nat * tarefa) :=
  filter (λ it, status it.2 = Pendente) (enumerate tasks).

Definition verificar_urgencia (st : estado) : estado * saida :=
  let pendentes := pendentes_de (TASKS st) in
  match pendentes with
  | [] => (st, NaoHaPendentes)
  | primeira :: _ =>
      let selecionada :=
        default primeira (primeira_por_prioridade PRIORITY_ORDER pendentes) in
      (set_TASKS (alter (set_status Fazendo) selecionada.1 (TASKS st)) st,
       TarefaSelecionada
         (mostrar_detalhes_tarefa (set_status Fazendo selecionada.2)))
  end.

(** The id typed by the user is [None] when [int(...)] raises. *)
Definition atualizar_prioridade (in_tid : option Z) (in_nova : str)
    (st : estado) : estado * saida :=
  match in_tid with
  | None => (st, IdInvalido)
  | Some tid =>
      match encontrar_tarefa_por_id (TASKS st) tid with
      | None => (st, NaoEncontrada)
      | Some (i, t) =>
          let nova := capitalize (strip in_nova) in
          if negb (validar_prioridade nova) then (st, PrioridadeInvalida)
          else (set_TASKS (alter (set_prioridade nova) i (TASKS st)) st,
                PrioridadeAlterada tid nova)
      end
  end.

(** Lines 306-307: the two assignments of [concluir_tarefa]. *)
Definition concluida_em (data : str) (t : tarefa) : tarefa :=
  set_status Concluida (set_data_conclusao (Some data) t).

Definition concluir_tarefa (agora : datetime) (in_tid : option Z)
    (st : estado) : estado * saida :=
  match in_tid with
  | None => (st, IdInvalido)
  | Some tid =>
      match encontrar_tarefa_por_id (TASKS st) tid with
      | None => (st, NaoEncontrada)
      | Some (i, t) =>
          if bool_decide (status t = Concluida) then (st, JaConcluida)
          else
            let data := agora_iso agora in
            (set_TASKS (alter (concluida_em data) i (TASKS st)) st,
             TarefaConcluida tid data)
      end
  end.

(** The test of the loop of [arquivar_tarefas_antigas]; [limite] is the
    ordinal of [agora - timedelta(days=7)]. *)
Definition deve_arquivar (limite : Z) (t : tarefa) : bool :=
  bool_decide (status t = Concluida) && truthy (data_conclusao t)
  && match parse_iso (data_conclusao t) with
     | Some dt => dt_us dt <? limite
     | None => false
     end.

Definition arquivar_tarefas_antigas (agora : datetime) (st : estado)
  : estado * saida :=
  let limite := dt_us agora - 7 * dia_us in
  let a_mover := filter (λ t, deve_arquivar limite t) (TASKS st) in
  match a_mover with
  | [] => (st, NadaParaArquivar)
  | _ :: _ =>
      ({| TASKS := filter (λ t, t ∉ a_mover) (TASKS st);
          ARCHIVED_TASKS := ARCHIVED_TASKS st ++ a_mover;
          ID_COUNTER := ID_COUNTER st |},
       Arquivadas (length a_mover))
  end.

Definition excluir_tarefa (in_tid : option Z) (st : estado) : estado * saida :=
  match in_tid with
  | None => (st, IdInvalido)
  | Some tid =>
      match encontrar_tarefa_por_id (TASKS st) tid with
      | None => (st, NaoEncontrada)
      | Some (i, t) =>
          (set_TASKS (alter (set_status Excluida) i (TASKS st)) st,
           TarefaExcluida tid)
      end
  end.

Definition relatorio_tarefas (st : estado) : estado * saida :=
  match TASKS st with
  | [] => (st, NenhumaTarefaAtiva)
  | _ :: _ => (st, Relatorio (map mostrar_detalhes_tarefa (TASKS st)))
  end.

Definition relatorio_arquivadas (st : estado) : estado * saida :=
  let arquivadas_validas :=
    filter (λ t, status t ≠ Excluida) (ARCHIVED_TASKS st) in
  match arquivadas_validas with
  | [] => (st, NenhumaArquivada)
  | _ :: _ => (st, Relatorio (map mostrar_detalhes_tarefa arquivadas_validas))
  end.

(** ** Menu and session *)

Inductive opcao :=
  | Op1 (agora : datetime) (in_titulo in_descricao in_prioridade in_origem : str)
  | Op2
  | Op3 (in_tid : option Z) (in_nova : str)
  | Op4 (agora : datetime) (in_tid : option Z)
  | Op5 (agora : datetime)
  | Op6 (in_tid : option Z)
  | Op7
  | Op8
  | Op9.

(** One turn of the loop of [main]. *)
Definition menu (opc : opcao) (st : estado) : estado * saida :=
  match opc with
  | Op1 agora a b c d => criar_tarefa agora a b c d st
  | Op2 => verificar_urgencia st
  | Op3 tid nova => atualizar_prioridade tid nova st
  | Op4 agora tid => concluir_tarefa agora tid st
  | Op5 agora => arquivar_tarefas_antigas agora st
  | Op6 tid => excluir_tarefa tid st
  | Op7 => relatorio_tarefas st
  | Op8 => relatorio_arquivadas st
  | Op9 => (st, DadosSalvos)
  end.

(** The loop: the state after the choices and what each of them printed. *)
Fixpoint sessao (opcs : list opcao) (st : estado) : estado * list saida :=
  match opcs with
  | [] => (st, [])
  | opc :: r =>
      let '(st1, o) := menu opc st in
      let '(st2, os) := sessao r st1 in
      (st2, o :: os)
  end.

(** [main]: load, sweep once, then the loop. *)
Definition main (tasks archived : list tarefa) (agora : datetime)
    (opcs : list opcao) : estado * list saida :=
  sessao opcs (arquivar_tarefas_antigas agora (carregar_dados tasks archived)).1.

(** Sessions one after the other: each one ends with option 0, which
    saves the two collections, and the next one loads them. *)
Fixpoint historico (ss : list (datetime * list opcao))
    (tasks archived : list tarefa) : list tarefa * list tarefa :=
  match ss with
  | [] => (tasks, archived)
  | (agora, opcs) :: r =>
      let st := (main tasks archived agora opcs).1 in
      historico r (TASKS st) (ARCHIVED_TASKS st)
  end.

(** ** Vocabulary of the properties *)

(** Strings of code points below U+0080. *)
Definition ascii_str (v : str) : Prop := Forall (λ c, (c < 0x80)%N) v.

(** A pending task with priority [pr]. *)
Definition pendente_com (pr : str) (t : tarefa) : Prop :=
  prioridade t = pr ∧ status t = Pendente.

(** The state and the output of [verificar_urgencia] when the task at
    position [i] is the one it picks. *)
Definition seleciona (st : estado) (i : nat) (t : tarefa) : Prop :=
  verificar_urgencia st
  = (set_TASKS (alter (set_status Fazendo) i (TASKS st)) st,
     TarefaSelecionada (mostrar_detalhes_tarefa (set_status Fazendo t))).



(** The tasks a report shows. *)
Definition tarefas_exibidas (o : saida) : list tarefa :=
  match o with
  | TarefaSelecionada d => [exibida d]
  | Relatorio l => exibida <$> l
  | _ => []
  end.

Definition ids_de (st : estado) : list Z :=
  id <$> (TASKS st ++ ARCHIVED_TASKS st).

(** The ids handed out during a session, in the order of creation. *)
Definition criados (os : list saida) : list Z :=
  omap (λ o, match o with TarefaCriada n => Some n | _ => None end) os.

End Operacoes.

(** ** Example stores

    Concrete stores and inputs for the worked examples. *)

Definition ex_tarefa (n : Z) (prio st : string) (criada : string)
    (concluida : option str) : tarefa :=
  {| id := n; titulo := u "Fix bug"; descricao := []; prioridade := u prio;
     status := u st; origem := u "Telefone";
     data_criacao := Some (u criada); data_conclusao := concluida |}.

Definition ex_agora : datetime := mk_datetime 2024 1 9 0 0 0 0.
Definition ex_depois : datetime := mk_datetime 2024 1 10 8 30 0 0.

(** Completed 8 days, completed 6 days and pending since long before
    [ex_agora]. *)
Definition ex_velha : tarefa :=
  ex_tarefa 1 "Alta" "Concluída" "2023-12-30T09:00:00"
    (Some (u "2024-01-01T00:00:00")).
Definition ex_recente : tarefa :=
  ex_tarefa 2 "Alta" "Concluída" "2023-12-30T09:00:00"
    (Some (u "2024-01-03T00:00:00")).
Definition ex_pendente : tarefa :=
  ex_tarefa 3 "Baixa" "Pendente" "2020-05-01T09:00:00" None.
Definition ex_excluida : tarefa :=
  ex_tarefa 4 "Média" "Excluída" "2023-12-30T09:00:00" None.
Definition ex_critica : tarefa :=
  ex_tarefa 5 "Crítica" "Pendente" "2024-01-05T09:00:00" None.

Definition ex_arquivo : estado :=
  mk_estado [ex_velha; ex_recente; ex_pendente] [] 4.

(** Pending tasks with priorities Baixa, Urgente, Alta, in that order. *)
Definition ex_urgencia : estado :=
  mk_estado [ex_tarefa 1 "Baixa" "Pendente" "2024-01-05T09:00:00" None;
             ex_tarefa 2 "Urgente" "Pendente" "2024-01-05T09:00:00" None;
             ex_tarefa 3 "Alta" "Pendente" "2024-01-05T09:00:00" None] [] 4.



Definition ex_arquivadas : estado :=
  mk_estado [] [ex_velha; ex_excluida; ex_recente] 5.

Definition ex_opcoes : list opcao :=
  [Op1 ex_agora (u "Revisar contrato") (u "") (u "alta") (u "telefone");
   Op6 (Some 3);
   Op4 ex_agora (Some 5);
   Op1 ex_depois (u "Ligar para o cliente") (u "") (u "URGENTE") (u "chamado");
   Op5 ex_depois;
   Op1 ex_depois (u "") (u "") (u "Baixa") (u "E-mail");
   Op2].

(** ** The files, the menu choice and the maintenance helper *)

(** [str(i)] for [i] in [range(0, 10)]. *)
Definition str_digito (i : nat) : str := [N.of_nat (48 + i)].

Definition opcao_valida (op : str) : bool :=
  bool_decide (op ∈ str_digito <$> seq 0 10).

(** What [open] and [json.load] find under a file name: no file, a file
    that is not JSON, or an array of tasks.  Files that hold other JSON
    values are not covered. *)
Inductive arquivo :=
  | Ausente
  | Ilegivel
  | Json (l : list tarefa).

(** The two files, [TASKS_FILE] and [ARCHIVE_FILE]. *)
Record disco := mk_disco {
  tarefas_json : arquivo;
  tarefas_arquivadas_json : arquivo
}.





(** Both files are rewritten; what [json.dump] writes is read back by
    [json.load] as the same array. *)
Definition salvar_dados (st : estado) (d : disco) : disco :=
  {| tarefas_json := Json (TASKS st);
     tarefas_arquivadas_json := Json (ARCHIVED_TASKS st) |}.

(** Lines 421-431. *)
Definition limpar_tarefas_excluidas_do_arquivo_de_arquivadas
    (st : estado) (d : disco) : estado * disco :=
  let st' := mk_estado (TASKS st)
               (filter (λ t, status t ≠ Excluida) (ARCHIVED_TASKS st))
               (ID_COUNTER st) in
  (st', salvar_dados st' d).

(** The number of pending tasks. *)
Definition n_pendentes (st : estado) : nat :=
  length (filter (λ t, status t = Pendente) (TASKS st)).


(** The spellings, stripped and in lower case, of the priorities and of
    the origins. *)
Definition prioridades_minusculas : list str :=
  [u "urgente"; u "alta"; u "média"; u "baixa"].





(** The four status values. *)
Definition STATUS : list str := [Pendente; Fazendo; Concluida; Excluida].

(** The origins as [criar_tarefa] stores them. *)
Definition origens_armazenadas : list str :=
  [u "E-Mail"; u "Telefone"; u "Chamado do Sistema"].

(** A task whose priority, status and origin are values the program
    writes. *)
Definition bem_formada (t : tarefa) : Prop :=
  prioridade t ∈ PRIORITIES ∧ status t ∈ STATUS
  ∧ origem t ∈ origens_armazenadas.

(** The status changes the program makes. *)
Definition transicao (s s' : str) : Prop :=
  s' = s
  ∨ (s = Pendente ∧ s' = Fazendo)
  ∨ (s ≠ Concluida ∧ s' = Concluida)
  ∨ s' = Excluida.

(** [t'] is [t] after some operations: same id and same fields set at
    creation, status changed along [transicao], priority the same or one
    of the four, a completion date never erased and present when the
    status became Concluída. *)
Definition sucessora (t t' : tarefa) : Prop :=
  id t' = id t ∧ titulo t' = titulo t ∧ descricao t' = descricao t
  ∧ origem t' = origem t ∧ data_criacao t' = data_criacao t
  ∧ transicao (status t) (status t')
  ∧ (prioridade t' = prioridade t ∨ prioridade t' ∈ PRIORITIES)
  ∧ (is_Some (data_conclusao t) → is_Some (data_conclusao t'))
  ∧ (status t' = Concluida →
     status t = Concluida ∨ is_Some (data_conclusao t')).

(** A task as [criar_tarefa] appends it, created in a session that printed
    [os]. *)
Definition recem_criada (os : list saida) (t : tarefa) : Prop :=
  id t ∈ criados os ∧ status t = Pendente ∧ data_conclusao t = None
  ∧ bem_formada t.


Section Disco.
Context `{IsoParser}.





(** [verificar_urgencia], [n] times in a row. *)
Fixpoint verificar_urgencia_vezes (n : nat) (st : estado) : estado :=
  match n with
  | O => st
  | S n' => verificar_urgencia_vezes n' (verificar_urgencia st).1
  end.

End Disco.


(** * The parser for the layout of [isoformat] *)

Lemma length_zfill w n : length (zfill w n) = w.
Proof.
  revert n. induction w as [|w IH]; intros n; [done|].
  cbn [zfill]. rewrite length_app, IH. cbn. lia.
Qed.

Lemma number_snoc acc l c :
  number acc (l ++ [c])
  = match number acc l, digit c with
    | Some a, Some d => Some (a * 10 + d)
    | _, _ => None
    end.
Proof.
  revert acc. induction l as [|x l IH]; intros acc; cbn.
  - by destruct (digit c).
  - destruct (digit x); [apply IH|done].
Qed.

Lemma digit_decimal n :
  0 ≤ n → digit (Z.to_N (48 + n mod 10)) = Some (n mod 10).
Proof.
  intros Hn. unfold digit.
  assert (0 ≤ n mod 10 < 10) as Hm by (apply Z.mod_pos_bound; lia).
  replace ((48 <=? Z.to_N (48 + n mod 10))%N
           && (Z.to_N (48 + n mod 10) <=? 57)%N) with true.
  - f_equal. lia.
  - symmetry. apply andb_true_iff. split; apply N.leb_le; lia.
Qed.

Lemma number_zfill w n :
  0 ≤ n → number 0 (zfill w n) = Some (n mod 10 ^ Z.of_nat w).
Proof.
  revert n. induction w as [|w IH]; intros n Hn.
  - cbn. by rewrite Z.mod_1_r.
  - cbn [zfill].
    rewrite number_snoc, IH, digit_decimal by (try apply Z.div_pos; lia).
    f_equal. rewrite Nat2Z.inj_succ, Z.pow_succ_r by lia.
    rewrite (Z.rem_mul_r n 10 (10 ^ Z.of_nat w)) by lia. lia.
Qed.

Lemma fromisoformat_basic_isoformat d :
  valid_datetime d = true → fromisoformat_basic (isoformat d) = Some d.
Proof.
  intros Hv. pose proof Hv as Hv'. unfold valid_datetime in Hv'.
  rewrite !andb_true_iff, !Z.leb_le, !Z.ltb_lt in Hv'.
  destruct Hv' as (((((((((((((?&?)&?)&?)&?)&?)&?)&?)&?)&?)&?)&?)&?)&?).
  assert (days_in_month (year d) (month d) ≤ 31) as Hdim.
  { unfold days_in_month. repeat case_match; lia. }
  destruct d as [y m dd hh mm ss us].
  cbn [year month day hour minute second microsecond] in *.
  unfold isoformat. cbn [year month day hour minute second microsecond].
  pose proof (number_zfill 4 y) as Ny. pose proof (number_zfill 2 m) as Nm.
  pose proof (number_zfill 2 dd) as Nd. pose proof (number_zfill 2 hh) as Nh.
  pose proof (number_zfill 2 mm) as Nmi. pose proof (number_zfill 2 ss) as Ns.
  pose proof (number_zfill 6 us) as Nu.
  rewrite Z.mod_small in Ny, Nm, Nd, Nh, Nmi, Ns, Nu by (cbn; lia).
  pose proof (length_zfill 4 y) as Ly. pose proof (length_zfill 2 m) as Lm.
  pose proof (length_zfill 2 dd) as Ld. pose proof (length_zfill 2 hh) as Lh.
  pose proof (length_zfill 2 mm) as Lmi. pose proof (length_zfill 2 ss) as Ls.
  pose proof (length_zfill 6 us) as Lu.
  destruct (zfill 4 y) as [|y1 [|y2 [|y3 [|y4 [|]]]]]; try done.
  destruct (zfill 2 m) as [|m1 [|m2 [|]]]; try done.
  destruct (zfill 2 dd) as [|d1 [|d2 [|]]]; try done.
  destruct (zfill 2 hh) as [|h1 [|h2 [|]]]; try done.
  destruct (zfill 2 mm) as [|i1 [|i2 [|]]]; try done.
  destruct (zfill 2 ss) as [|s1 [|s2 [|]]]; try done.
  destruct (zfill 6 us) as [|u1 [|u2 [|u3 [|u4 [|u5 [|u6 [|]]]]]]]; try done.
  change (u "-") with [45%N]. change (u "T") with [84%N].
  change (u ":") with [58%N]. change (u ".") with [46%N].
  unfold fromisoformat_basic.
  change (u "-") with [45%N]. change (u "T") with [84%N].
  change (u ":") with [58%N]. change (u ".") with [46%N].
  destruct (Z.eqb_spec us 0) as [->|Hus];
    cbn [app take drop length bool_decide decide_rel];
    rewrite ?Ny, ?Nm, ?Nd, ?Nh, ?Nmi, ?Ns, ?Nu by lia.
  - rewrite !bool_decide_eq_true_2 by done. cbn. by rewrite Hv.
  - rewrite (bool_decide_eq_false_2 (26%nat = 19%nat)) by done.
    rewrite !bool_decide_eq_true_2 by done. cbn. by rewrite Hv.
Qed.

#[export] Instance parser_basic : IsoParser :=
  {| fromisoformat := fromisoformat_basic;
     fromisoformat_empty := eq_refl;
     fromisoformat_isoformat := fromisoformat_basic_isoformat |}.

(** * Properties *)

Section Propriedades.
Context `{IsoParser}.

(** ** Positions and first matches *)

Lemma head_filter_enumerate_from {A} (P : A → Prop) (Q : nat * A → Prop)
    `{!∀ x, Decision (P x), !∀ it, Decision (Q it)} (k : nat) (l : list A) :
  (∀ it, Q it ↔ P it.2) →
  head (filter Q (enumerate_from k l))
  = prod_map (λ i, (k + i)%nat) Datatypes.id <$> list_find P l.
Proof.
  intros HQ. revert k. induction l as [|x l IH]; intros k; [done|].
  cbn [enumerate_from list_find]. rewrite filter_cons.
  destruct (decide (P x)) as [Hx|Hx].
  - rewrite decide_True by by apply HQ. cbn. by rewrite Nat.add_0_r.
  - rewrite decide_False by by rewrite HQ. rewrite IH.
    destruct (list_find P l) as [[i y]|]; cbn; [|done].
    do 2 f_equal. lia.
Qed.

Lemma head_filter_enumerate {A} (P : A → Prop) (Q : nat * A → Prop)
    `{!∀ x, Decision (P x), !∀ it, Decision (Q it)} (l : list A) :
  (∀ it, Q it ↔ P it.2) →
  head (filter Q (enumerate l)) = list_find P l.
Proof.
  intros HQ. unfold enumerate. rewrite (head_filter_enumerate_from P Q) by done.
  by destruct (list_find P l) as [[i y]|].
Qed.

Lemma head_pendentes l :
  head (pendentes_de l) = list_find (λ t, status t = Pendente) l.
Proof. unfold pendentes_de. by apply head_filter_enumerate. Qed.

Lemma head_pendentes_com pr l :
  head (filter (λ it, prioridade it.2 = pr) (pendentes_de l))
  = list_find (pendente_com pr) l.
Proof.
  unfold pendentes_de. rewrite list_filter_filter.
  by apply head_filter_enumerate.
Qed.

Lemma primeira_por_prioridade_Some ordem l it :
  primeira_por_prioridade ordem (pendentes_de l) = Some it →
  ∃ k pr, ordem !! k = Some pr
    ∧ list_find (pendente_com pr) l = Some it
    ∧ ∀ k' pr', (k' < k)%nat → ordem !! k' = Some pr' →
        list_find (pendente_com pr') l = None.
Proof.
  induction ordem as [|pr ordem IH]; [done|]. cbn [primeira_por_prioridade].
  rewrite head_pendentes_com.
  destruct (list_find (pendente_com pr) l) as [it'|] eqn:Hf.
  - intros [= ->]. exists 0%nat, pr. split_and!; [done..|]. intros; lia.
  - intros (k & pr' & Hk & Hfind & Hmin)%IH.
    exists (S k), pr'. split_and!; [done..|].
    intros [|k'] pr'' Hlt Hk'; simplify_eq/=; [done|].
    apply (Hmin k'); [lia|done].
Qed.

Lemma primeira_por_prioridade_None ordem l :
  primeira_por_prioridade ordem (pendentes_de l) = None ↔
  ∀ pr, pr ∈ ordem → list_find (pendente_com pr) l = None.
Proof.
  induction ordem as [|pr ordem IH]; cbn [primeira_por_prioridade].
  - split; [|done]. by intros _ pr ?%elem_of_nil.
  - rewrite head_pendentes_com.
    destruct (list_find (pendente_com pr) l) as [it'|] eqn:Hf.
    + split; [done|]. intros Hall.
      rewrite (Hall pr) in Hf; [done|]. apply list_elem_of_here.
    + rewrite IH. split.
      * intros Hall pr' [->|?]%elem_of_cons; auto.
      * intros Hall pr' ?. apply Hall. by apply list_elem_of_further.
Qed.

Lemma verificar_urgencia_nivel st it :
  primeira_por_prioridade PRIORITY_ORDER (pendentes_de (TASKS st)) = Some it →
  seleciona st it.1 it.2.
Proof.
  intros Hsel. unfold seleciona, verificar_urgencia. cbv zeta.
  destruct (pendentes_de (TASKS st)) as [|p ps] eqn:Hp.
  - by vm_compute in Hsel.
  - by rewrite Hsel.
Qed.

Lemma verificar_urgencia_primeira st it :
  head (pendentes_de (TASKS st)) = Some it →
  primeira_por_prioridade PRIORITY_ORDER (pendentes_de (TASKS st)) = None →
  seleciona st it.1 it.2.
Proof.
  intros Hhd Hsel. unfold seleciona, verificar_urgencia. cbv zeta.
  rewrite Hsel. destruct (pendentes_de (TASKS st)); by simplify_eq/=.
Qed.

Lemma verificar_urgencia_vazia st :
  (∀ t, t ∈ TASKS st → status t ≠ Pendente) →
  verificar_urgencia st = (st, NaoHaPendentes).
Proof.
  intros Hnone. unfold verificar_urgencia. cbv zeta.
  destruct (pendentes_de (TASKS st)) as [|it ps] eqn:Hp; [done|].
  assert (head (pendentes_de (TASKS st)) = Some it) as Hhd by by rewrite Hp.
  rewrite head_pendentes in Hhd. destruct it as [i t].
  apply list_find_Some in Hhd as (Hi & Hst & _).
  destruct (Hnone t); [by eapply list_elem_of_lookup_2|done].
Qed.




(** ** Case mapping *)

Lemma is_upper_l1_spec c :
  is_upper_l1 c = true
  ↔ (0x41 ≤ c ≤ 0x5A ∨ 0xC0 ≤ c ≤ 0xDE ∧ c ≠ 0xD7)%N.
Proof.
  unfold is_upper_l1.
  rewrite orb_true_iff, !andb_true_iff, negb_true_iff, !N.leb_le, N.eqb_neq.
  tauto.
Qed.

Lemma is_lower_l1_spec c :
  is_lower_l1 c = true
  ↔ (0x61 ≤ c ≤ 0x7A ∨ 0xE0 ≤ c ≤ 0xFE ∧ c ≠ 0xF7)%N.
Proof.
  unfold is_lower_l1.
  rewrite orb_true_iff, !andb_true_iff, negb_true_iff, !N.leb_le, N.eqb_neq.
  tauto.
Qed.

(** Decides the class of each code point of the goal and leaves the
    ranges as hypotheses. *)
Ltac classes :=
  repeat match goal with
    | |- context [is_upper_l1 ?c] =>
        let E := fresh "Hup" in
        destruct (is_upper_l1 c) eqn:E;
        [apply is_upper_l1_spec in E
        |apply not_true_iff_false in E; rewrite is_upper_l1_spec in E]
    | |- context [is_lower_l1 ?c] =>
        let E := fresh "Hlo" in
        destruct (is_lower_l1 c) eqn:E;
        [apply is_lower_l1_spec in E
        |apply not_true_iff_false in E; rewrite is_lower_l1_spec in E]
    | |- context [(?a =? ?b)%N] => destruct (N.eqb_spec a b)
    end.

Lemma lower_cp_lower_cp c : flat_map lower_cp (lower_cp c) = lower_cp c.
Proof.
  unfold lower_cp at 2 3. destruct (is_upper_l1 c) eqn:Hc; cbn [flat_map];
    rewrite app_nil_r; unfold lower_cp.
  - apply is_upper_l1_spec in Hc. classes; [lia|done].
  - by rewrite Hc.
Qed.

Lemma lower_lower s : lower (lower s) = lower s.
Proof.
  unfold lower. induction s as [|c r IH]; [done|]. cbn [flat_map].
  by rewrite flat_map_app, IH, lower_cp_lower_cp.
Qed.

Lemma capitalize_title_cp c r :
  capitalize (title_cp c ++ r) = title_cp c ++ lower r.
Proof.
  unfold title_cp. classes; subst; try done; cbn [app capitalize];
    unfold title_cp; classes; subst; try done; lia.
Qed.

Lemma capitalize_capitalize s : capitalize (capitalize s) = capitalize s.
Proof.
  destruct s as [|c r]; [done|]. cbn [capitalize].
  by rewrite capitalize_title_cp, lower_lower.
Qed.

Lemma is_cased_ascii c :
  (c < 0x80)%N → is_cased c = is_upper_l1 c || is_lower_l1 c.
Proof.
  intros Hc. unfold is_cased. rewrite !(proj2 (N.eqb_neq _ _)) by lia.
  by rewrite !orb_false_r.
Qed.

(** One step of [title_from], read back from its lower-cased output: when
    that output is below U+0080, [title_from] on it retraces the step. *)
Lemma title_from_passo (b : bool) c r :
  ascii_str (lower (if b then lower_cp c else title_cp c)) →
  title_from b (lower (if b then lower_cp c else title_cp c) ++ r)
  = (if b then lower_cp c else title_cp c) ++ title_from (is_cased c) r.
Proof.
  unfold ascii_str, lower. destruct b.
  - rewrite lower_cp_lower_cp. unfold lower_cp.
    destruct (is_upper_l1 c) eqn:Hu; intros [Hc _]%Forall_cons;
      cbn [app title_from]; unfold lower_cp.
    + apply is_upper_l1_spec in Hu.
      rewrite (is_cased_ascii c), (is_cased_ascii (c + 32)) by lia.
      classes; try done; lia.
    + by rewrite Hu.
  - unfold title_cp. destruct (is_lower_l1 c) eqn:Hl.
    + apply is_lower_l1_spec in Hl. cbn [flat_map app]. rewrite app_nil_r.
      unfold lower_cp.
      replace (is_upper_l1 (c - 32)) with true
        by (symmetry; apply is_upper_l1_spec; lia).
      replace (c - 32 + 32)%N with c by lia.
      intros [Hc _]%Forall_cons. cbn [app title_from]. unfold title_cp.
      classes; try done; lia.
    + destruct (N.eqb_spec c 0xB5) as [->|?].
      { intros [Hc _]%Forall_cons. by vm_compute in Hc. }
      destruct (N.eqb_spec c 0xDF) as [->|?]; [done|].
      destruct (N.eqb_spec c 0xFF) as [->|?].
      { intros [Hc _]%Forall_cons. by vm_compute in Hc. }
      cbn [flat_map app]. rewrite app_nil_r. unfold lower_cp.
      destruct (is_upper_l1 c) eqn:Hu; intros [Hc _]%Forall_cons;
        cbn [app title_from]; unfold title_cp.
      * apply is_upper_l1_spec in Hu.
        rewrite (is_cased_ascii c), (is_cased_ascii (c + 32)) by lia.
        classes; try lia. cbn. do 2 f_equal. lia.
      * rewrite Hl. by rewrite !(proj2 (N.eqb_neq _ _)) by done.
Qed.

Lemma title_from_ascii b x v :
  ascii_str v → lower (title_from b x) = v → title_from b x = title_from b v.
Proof.
  revert b v. induction x as [|c r IH]; intros b v Hv Hl.
  - cbn in Hl. by subst.
  - cbn [title_from] in *. unfold lower in Hl. rewrite flat_map_app in Hl.
    fold (lower (if b then lower_cp c else title_cp c)) in Hl.
    fold (lower (title_from (is_cased c) r)) in Hl. subst v.
    apply Forall_app in Hv as [Hv1 Hv2].
    rewrite title_from_passo by done. f_equal. by apply IH.
Qed.

Lemma lower_ascii w : ascii_str w → ascii_str (lower w).
Proof.
  unfold ascii_str, lower. intros Hw. apply Forall_flat_map.
  eapply Forall_impl; [done|]. intros c Hlt. cbn beta in Hlt.
  unfold lower_cp. classes; repeat constructor; lia.
Qed.

Lemma lower_capitalize y w :
  ascii_str w → head w ≠ Some 0x53%N → capitalize y = w → lower y = lower w.
Proof.
  intros Hw Hs <-. destruct y as [|c r]; [done|].
  cbn [capitalize] in *. unfold lower at 2. rewrite flat_map_app.
  fold (lower (title_cp c)). fold (lower (lower r)). rewrite lower_lower.
  change (lower (c :: r)) with (lower_cp c ++ lower r). f_equal.
  apply Forall_app in Hw as [Hw _]. revert Hw Hs.
  unfold title_cp. destruct (is_lower_l1 c) eqn:Hl.
  - apply is_lower_l1_spec in Hl. intros _ _. unfold lower, lower_cp.
    cbn [flat_map]. rewrite app_nil_r. classes; try lia. f_equal. lia.
  - destruct (N.eqb_spec c 0xB5) as [->|?].
    { intros [Hc _]%Forall_cons. by vm_compute in Hc. }
    destruct (N.eqb_spec c 0xDF) as [->|?]; [done|].
    destruct (N.eqb_spec c 0xFF) as [->|?].
    { intros [Hc _]%Forall_cons. by vm_compute in Hc. }
    intros _ _. unfold lower. cbn [flat_map]. by rewrite app_nil_r.
Qed.

(** A priority that is stored has passed [validar_prioridade] in its
    capitalized form, so it is one of the four. *)
Lemma validar_prioridade_capitalize s :
  validar_prioridade (capitalize s) = true → capitalize s ∈ PRIORITIES.
Proof.
  unfold validar_prioridade. rewrite capitalize_capitalize.
  apply bool_decide_eq_true_1.
Qed.

(** A stored origin has passed [validar_origem]: it is E-Mail, Telefone or
    Chamado do Sistema. *)
Lemma origem_normalizada_valida x :
  validar_origem (origem_normalizada x) = true →
  origem_normalizada x ∈ [u "E-Mail"; u "Telefone"; u "Chamado do Sistema"].
Proof.
  unfold origem_normalizada. cbv zeta. case_bool_decide as Hch.
  - intros _. compute_done.
  - unfold validar_origem. cbv zeta. intros Hv%bool_decide_eq_true_1.
    assert (∀ w, capitalize (title x) = w → ascii_str w →
              head w ≠ Some 0x53%N →
              lower (title x) = lower w ∧ title x = title (lower w)) as Hw.
    { intros w Hc Ha Hs. apply (lower_capitalize _ _ Ha Hs) in Hc.
      split; [done|]. apply title_from_ascii; [|done]. by apply lower_ascii. }
    replace (map capitalize ORIGENS)
      with [u "E-mail"; u "Telefone"; u "Chamado do sistema"] in Hv
      by by vm_compute.
    apply elem_of_cons in Hv as [Hv|Hv].
    { apply Hw in Hv as [_ ->]; compute_done. }
    apply elem_of_cons in Hv as [Hv|Hv].
    { apply Hw in Hv as [_ ->]; compute_done. }
    apply elem_of_cons in Hv as [Hv|Hv]; [|by apply elem_of_nil in Hv].
    apply Hw in Hv as [Hl _]; [|compute_done..].
    destruct Hch. rewrite Hl. compute_done.
Qed.

(** ** Finding a task and changing it in place *)

Lemma encontrar_alter (f : tarefa → tarefa) l tid i t :
  (∀ x, id (f x) = id x) →
  encontrar_tarefa_por_id l tid = Some (i, t) →
  encontrar_tarefa_por_id (alter f i l) tid = Some (i, f t).
Proof.
  unfold encontrar_tarefa_por_id. intros Hid (Hi & Ht & Hfirst)%list_find_Some.
  apply list_find_Some. split_and!.
  - by rewrite list_lookup_alter_eq, Hi.
  - by rewrite Hid.
  - intros j y Hj Hlt. rewrite list_lookup_alter_ne in Hj by lia.
    by apply (Hfirst j).
Qed.

Lemma concluir_tarefa_ja_concluida agora st tid i t :
  encontrar_tarefa_por_id (TASKS st) tid = Some (i, t) →
  status t = Concluida →
  concluir_tarefa agora (Some tid) st = (st, JaConcluida).
Proof.
  intros Hf Hs. unfold concluir_tarefa. rewrite Hf.
  by rewrite bool_decide_eq_true_2.
Qed.

Lemma concluir_tarefa_carimba agora st tid i t :
  encontrar_tarefa_por_id (TASKS st) tid = Some (i, t) →
  status t ≠ Concluida →
  concluir_tarefa agora (Some tid) st
  = (set_TASKS (alter (concluida_em (agora_iso agora)) i (TASKS st)) st,
     TarefaConcluida tid (agora_iso agora)).
Proof.
  intros Hf Hs. unfold concluir_tarefa. rewrite Hf.
  by rewrite bool_decide_eq_false_2.
Qed.

Lemma parse_iso_agora_iso agora :
  valid_datetime agora = true → parse_iso (Some (agora_iso agora)) = Some agora.
Proof. apply fromisoformat_isoformat. Qed.

(** C3: the first completion of an active task stamps [data_conclusao]
    with the current time and sets the status to Concluída; a completion
    of a task that is already Concluída only reports it, so after two
    completions in a row [data_conclusao] is still the first stamp. *)
Theorem concluir_tarefa_idempotente agora1 agora2 st tid i t :
  encontrar_tarefa_por_id (TASKS st) tid = Some (i, t) →
  (status t = Concluida →
   concluir_tarefa agora1 (Some tid) st = (st, JaConcluida))
  ∧ (status t ≠ Concluida →
     let r1 := concluir_tarefa agora1 (Some tid) st in
     let t1 := concluida_em (agora_iso agora1) t in
     r1.2 = TarefaConcluida tid (agora_iso agora1)
     ∧ encontrar_tarefa_por_id (TASKS r1.1) tid = Some (i, t1)
     ∧ status t1 = Concluida
     ∧ data_conclusao t1 = Some (agora_iso agora1)
     ∧ (valid_datetime agora1 = true →
        parse_iso (data_conclusao t1) = Some agora1)
     ∧ concluir_tarefa agora2 (Some tid) r1.1 = (r1.1, JaConcluida)).
Proof.
  intros Hf. split; [intros Hs; by eapply concluir_tarefa_ja_concluida|].
  intros Hs. cbv zeta. rewrite (concluir_tarefa_carimba _ _ _ _ _ Hf Hs).
  cbn [fst snd set_TASKS TASKS].
  pose proof (parse_iso_agora_iso agora1) as Hparse.
  assert (encontrar_tarefa_por_id
            (alter (concluida_em (agora_iso agora1)) i (TASKS st)) tid
          = Some (i, concluida_em (agora_iso agora1) t)) as Hf1
    by by apply encontrar_alter.
  split_and!; [done..|].
  by eapply concluir_tarefa_ja_concluida.
Qed.

(** C9: completion is not blocked on a logically deleted task.  For an
    active task whose status is Excluída (or any status other than
    Concluída) it sets the status to Concluída and stamps [data_conclusao]
    with the current time. *)
Theorem concluir_tarefa_excluida agora st tid i t :
  encontrar_tarefa_por_id (TASKS st) tid = Some (i, t) →
  status t = Excluida →
  let r := concluir_tarefa agora (Some tid) st in
  let t' := concluida_em (agora_iso agora) t in
  r = (set_TASKS (alter (concluida_em (agora_iso agora)) i (TASKS st)) st,
       TarefaConcluida tid (agora_iso agora))
  ∧ encontrar_tarefa_por_id (TASKS r.1) tid = Some (i, t')
  ∧ status t' = Concluida
  ∧ data_conclusao t' = Some (agora_iso agora)
  ∧ (valid_datetime agora = true → parse_iso (data_conclusao t') = Some agora).
Proof.
  intros Hf Hs. cbv zeta.
  rewrite (concluir_tarefa_carimba _ _ _ _ _ Hf) by by rewrite Hs.
  cbn [fst snd set_TASKS TASKS].
  split_and!; [done| |done..|apply parse_iso_agora_iso].
  by apply encontrar_alter.
Qed.

(** C5: [atualizar_prioridade] validates the new priority before it
    changes the task.  The inputs urgente and Urgente give the same state,
    in which the task has priority Urgente; Crítica, like every input whose
    capitalized form is not one of the four priorities, is rejected and
    the state stays as it was; an accepted input stores one of the four. *)
Theorem atualizar_prioridade_valida st tid i t :
  encontrar_tarefa_por_id (TASKS st) tid = Some (i, t) →
  atualizar_prioridade (Some tid) (u "urgente") st
  = atualizar_prioridade (Some tid) (u "Urgente") st
  ∧ atualizar_prioridade (Some tid) (u "Urgente") st
    = (set_TASKS (alter (set_prioridade (u "Urgente")) i (TASKS st)) st,
       PrioridadeAlterada tid (u "Urgente"))
  ∧ atualizar_prioridade (Some tid) (u "Crítica") st = (st, PrioridadeInvalida)
  ∧ (∀ nova, capitalize (strip nova) ∉ PRIORITIES →
       atualizar_prioridade (Some tid) nova st = (st, PrioridadeInvalida))
  ∧ (∀ nova st' o, atualizar_prioridade (Some tid) nova st = (st', o) →
       o ≠ PrioridadeInvalida →
       capitalize (strip nova) ∈ PRIORITIES
       ∧ st' = set_TASKS (alter (set_prioridade (capitalize (strip nova))) i
                            (TASKS st)) st
       ∧ encontrar_tarefa_por_id (TASKS st') tid
         = Some (i, set_prioridade (capitalize (strip nova)) t)).
Proof.
  intros Hf. unfold atualizar_prioridade. rewrite Hf. split_and!; [done..| |].
  - intros nova Hn.
    destruct (validar_prioridade (capitalize (strip nova))) eqn:Hv; [|done].
    by apply validar_prioridade_capitalize in Hv.
  - intros nova st' o.
    destruct (validar_prioridade (capitalize (strip nova))) eqn:Hv;
      cbn; intros [= <- <-]; [|done]. intros _.
    split_and!; [by apply validar_prioridade_capitalize|done|].
    by apply encontrar_alter.
Qed.

(** ** The retention sweep *)

Lemma deve_arquivar_spec limite t :
  deve_arquivar limite t = true ↔
  status t = Concluida
  ∧ ∃ s dt, data_conclusao t = Some s ∧ fromisoformat s = Some dt
            ∧ dt_us dt < limite.
Proof.
  unfold deve_arquivar, parse_iso, truthy.
  rewrite !andb_true_iff, bool_decide_eq_true. split.
  - intros [[Hs _] Hd]. split; [done|].
    destruct (data_conclusao t) as [s|]; [|done].
    destruct (fromisoformat s) as [dt|] eqn:Hp; [|done].
    exists s, dt. split_and!; [done..|]. by apply Z.ltb_lt.
  - intros [Hs (s & dt & -> & Hp & Hlt)]. split_and!; [done| |].
    + destruct s; [|done]. by rewrite fromisoformat_empty in Hp.
    + rewrite Hp. by apply Z.ltb_lt.
Qed.

Lemma filter_fora_dos_movidos {A} `{!EqDecision A} (P : A → Prop)
    `{!∀ x, Decision (P x)} (l : list A) :
  filter (λ x, x ∉ filter P l) l = filter (λ x, ¬ P x) l.
Proof.
  assert (∀ k, Forall (λ x, x ∈ l) k →
            filter (λ x, x ∉ filter P l) k = filter (λ x, ¬ P x) k) as Hk.
  { induction 1 as [|x k Hx _ IH]; [done|]. rewrite !filter_cons, IH.
    apply decide_ext. rewrite list_elem_of_filter. tauto. }
  apply Hk, Forall_forall. auto.
Qed.

Lemma arquivar_tarefas_antigas_estado agora st :
  let limite := dt_us agora - 7 * dia_us in
  let st' := (arquivar_tarefas_antigas agora st).1 in
  TASKS st' = filter (λ t, ¬ deve_arquivar limite t) (TASKS st)
  ∧ ARCHIVED_TASKS st'
    = ARCHIVED_TASKS st ++ filter (λ t, deve_arquivar limite t) (TASKS st)
  ∧ ID_COUNTER st' = ID_COUNTER st.
Proof.
  cbv zeta. unfold arquivar_tarefas_antigas. cbv zeta.
  pose proof (filter_fora_dos_movidos
                (λ t, deve_arquivar (dt_us agora - 7 * dia_us) t) (TASKS st))
    as Hfora.
  set (a_mover := filter (λ t, deve_arquivar (dt_us agora - 7 * dia_us) t)
                    (TASKS st)) in *.
  destruct a_mover as [|m ms] eqn:Hm;
    cbn [fst TASKS ARCHIVED_TASKS ID_COUNTER].
  - rewrite app_nil_r. split_and!; [|done..]. rewrite <- Hfora.
    clear. induction (TASKS st) as [|x l IH]; [done|].
    rewrite filter_cons. rewrite decide_True by apply not_elem_of_nil.
    by rewrite <- IH.
  - done.
Qed.


(** ** Execution time *)


(** ** The report of archived tasks *)

(** C8: [relatorio_arquivadas] shows the archived tasks whose status is not
    Excluída, in stored order, and leaves both collections as they were: an
    archived task that is Excluída is not shown and is still archived. *)
Theorem relatorio_arquivadas_filtra st :
  let r := relatorio_arquivadas st in
  r.1 = st
  ∧ tarefas_exibidas r.2
    = filter (λ t, status t ≠ Excluida) (ARCHIVED_TASKS st)
  ∧ (∀ t, t ∈ ARCHIVED_TASKS st → status t = Excluida →
       (t ∉ tarefas_exibidas r.2) ∧ t ∈ ARCHIVED_TASKS r.1)
  ∧ (∀ t, t ∈ ARCHIVED_TASKS st → status t ≠ Excluida →
       t ∈ tarefas_exibidas r.2).
Proof.
  cbv zeta.
  assert ((relatorio_arquivadas st).1 = st
          ∧ tarefas_exibidas (relatorio_arquivadas st).2
            = filter (λ t, status t ≠ Excluida) (ARCHIVED_TASKS st))
    as [Hst Hex].
  { unfold relatorio_arquivadas. cbv zeta.
    destruct (filter _ (ARCHIVED_TASKS st)) as [|x l]; [done|].
    cbn [fst snd tarefas_exibidas]. split; [done|].
    rewrite <- list_fmap_compose. apply list_fmap_id. }
  rewrite Hst, Hex. split_and!; [done..| |].
  - intros t Hin Hs. rewrite list_elem_of_filter. tauto.
  - intros t Hin Hs. by rewrite list_elem_of_filter.
Qed.

(** ** Creation *)

(** [criar_tarefa] either rejects the input and leaves the state as it was,
    or appends one task, whose id is the counter, and advances the counter. *)
Lemma criar_tarefa_casos agora a b c d st :
  (∃ o, criar_tarefa agora a b c d st = (st, o) ∧ ∀ n, o ≠ TarefaCriada n)
  ∨ (∃ t, criar_tarefa agora a b c d st
          = (mk_estado (TASKS st ++ [t]) (ARCHIVED_TASKS st) (ID_COUNTER st + 1),
             TarefaCriada (ID_COUNTER st))
          ∧ id t = ID_COUNTER st
          ∧ titulo t = strip a ∧ titulo t ≠ []
          ∧ prioridade t = capitalize (strip c)
          ∧ validar_prioridade (prioridade t) = true
          ∧ origem t = origem_normalizada (strip d)
          ∧ validar_origem (origem t) = true
          ∧ status t = Pendente
          ∧ data_criacao t = Some (agora_iso agora)
          ∧ data_conclusao t = None).
Proof.
  unfold criar_tarefa. cbv zeta.
  case_bool_decide as Ht; [left; by eexists|].
  destruct (validar_prioridade (capitalize (strip c))) eqn:Hp;
    cbn [negb]; [|left; by eexists].
  match goal with
  | |- context [validar_origem ?o] => destruct (validar_origem o) eqn:Ho
  end; cbn [negb]; [|left; by eexists].
  right. eexists. split; [reflexivity|].
  cbn [id titulo prioridade origem status data_criacao data_conclusao].
  by split_and!.
Qed.

(** The priority of a created task is one of the four; its origin is
    E-Mail, Telefone or Chamado do Sistema. *)
Lemma criar_tarefa_valores agora a b c d st st' n :
  criar_tarefa agora a b c d st = (st', TarefaCriada n) →
  ∃ t, TASKS st' = TASKS st ++ [t] ∧ id t = ID_COUNTER st ∧ n = ID_COUNTER st
       ∧ status t = Pendente ∧ prioridade t ∈ PRIORITIES
       ∧ origem t ∈ [u "E-Mail"; u "Telefone"; u "Chamado do Sistema"].
Proof.
  destruct (criar_tarefa_casos agora a b c d st)
    as [(o & -> & Ho)|(t & -> & Hid & _ & _ & Hp & Hv & Ho & Hvo & Hs & _)].
  - intros [= _ ->]. by destruct (Ho n).
  - intros [= <- <-]. exists t. split_and!; [done..| |].
    + rewrite Hp in *. by apply validar_prioridade_capitalize.
    + rewrite Ho in *. by apply origem_normalizada_valida.
Qed.

(** ** Identifiers *)

Lemma maior_id_fold l m :
  let r := fold_left (λ max_id t, if max_id <? id t then id t else max_id) l m in
  m ≤ r ∧ (∀ t, t ∈ l → id t ≤ r) ∧ (r = m ∨ r ∈ id <$> l).
Proof.
  revert m. induction l as [|x l IH]; intros m; cbn.
  - split_and!; [lia| |by left]. by intros t ?%elem_of_nil.
  - destruct (IH (if m <? id x then id x else m)) as (Hle & Hmax & Hin).
    destruct (Z.ltb_spec m (id x)); split_and!; try lia.
    + intros t [->|?]%elem_of_cons; [lia|auto].
    + right. destruct Hin as [->|?]; [apply list_elem_of_here|].
      by apply list_elem_of_further.
    + intros t [->|?]%elem_of_cons; [lia|auto].
    + destruct Hin as [?|?]; [by left|]. right. by apply list_elem_of_further.
Qed.

Lemma fmap_id_alter (f : tarefa → tarefa) i (l : list tarefa) :
  (∀ x, id (f x) = id x) → id <$> alter f i l = id <$> l.
Proof.
  intros Hf. rewrite (list_fmap_alter id f (λ x, x)).
  - by apply list_alter_id.
  - apply Forall_forall. auto.
Qed.

Lemma ids_de_alter (f : tarefa → tarefa) i st :
  (∀ x, id (f x) = id x) →
  ids_de (set_TASKS (alter f i (TASKS st)) st) = ids_de st.
Proof.
  intros Hf. unfold ids_de. cbn. by rewrite !fmap_app, fmap_id_alter.
Qed.

(** One turn of the menu either creates a task, whose id is the counter,
    and advances the counter by one, or keeps the counter and the ids. *)
Lemma menu_ids opc st :
  let r := menu opc st in
  (r.2 = TarefaCriada (ID_COUNTER st)
   ∧ ID_COUNTER r.1 = ID_COUNTER st + 1
   ∧ ids_de r.1 ≡ₚ ids_de st ++ [ID_COUNTER st])
  ∨ ((∀ n, r.2 ≠ TarefaCriada n)
     ∧ ID_COUNTER r.1 = ID_COUNTER st
     ∧ ids_de r.1 ≡ₚ ids_de st).
Proof.
  cbv zeta. destruct opc as [agora a b c d| |tid nova|agora tid|agora|tid| | |];
    cbn [menu].
  - destruct (criar_tarefa_casos agora a b c d st)
      as [(o & -> & Ho)|(t & -> & Hid & _)]; [by right|].
    left. cbn [fst snd ID_COUNTER]. split_and!; [done..|].
    unfold ids_de. cbn [TASKS ARCHIVED_TASKS].
    rewrite !fmap_app. cbn [fmap list_fmap]. rewrite Hid.
    by rewrite <- !(assoc_L (++)), (comm (++) [_]).
  - right. unfold verificar_urgencia. cbv zeta. case_match; [done|].
    cbn [fst snd]. split_and!; [done..|]. by rewrite ids_de_alter.
  - right. unfold atualizar_prioridade.
    repeat (case_match; try done). cbn [fst snd].
    split_and!; [done..|]. by rewrite ids_de_alter.
  - right. unfold concluir_tarefa.
    repeat (case_match; try done). cbn [fst snd].
    split_and!; [done..|]. by rewrite ids_de_alter.
  - right. split; [|split].
    + intros n. unfold arquivar_tarefas_antigas. cbv zeta. by case_match.
    + apply arquivar_tarefas_antigas_estado.
    + destruct (arquivar_tarefas_antigas_estado agora st) as (Ht & Ha & _).
      unfold ids_de. rewrite Ht, Ha. apply fmap_Permutation.
      rewrite (comm (++) (ARCHIVED_TASKS st)), (assoc_L (++)).
      f_equiv. rewrite (comm (++)). apply filter_app_complement.
  - right. unfold excluir_tarefa.
    repeat (case_match; try done). cbn [fst snd].
    split_and!; [done..|]. by rewrite ids_de_alter.
  - right. unfold relatorio_tarefas. by case_match.
  - right. unfold relatorio_arquivadas. cbv zeta. by case_match.
  - by right.
Qed.

Lemma sessao_ids opcs st :
  let r := sessao opcs st in
  criados r.2 = seqZ (ID_COUNTER st) (Z.of_nat (length (criados r.2)))
  ∧ ID_COUNTER r.1 = ID_COUNTER st + Z.of_nat (length (criados r.2))
  ∧ ids_de r.1 ≡ₚ ids_de st ++ criados r.2.
Proof.
  cbv zeta. revert st. induction opcs as [|opc opcs IH]; intros st.
  - cbn. split_and!; [done|lia|by rewrite app_nil_r].
  - cbn [sessao]. pose proof (menu_ids opc st) as Hm. cbv zeta in Hm.
    destruct (menu opc st) as [st1 o]. specialize (IH st1).
    destruct (sessao opcs st1) as [st2 os]. cbn [fst snd] in *.
    destruct IH as (Hseq & Hc & Hp).
    destruct Hm as [(-> & Hc1 & Hp1)|(Ho & Hc1 & Hp1)].
    + assert (criados (TarefaCriada (ID_COUNTER st) :: os)
              = ID_COUNTER st :: criados os) as -> by done.
      cbn [length].
      rewrite Nat2Z.inj_succ, seqZ_cons by lia.
      rewrite Z.pred_succ. replace (Z.succ (ID_COUNTER st)) with (ID_COUNTER st1) by lia.
      rewrite <- Hseq. split_and!; [done|lia|].
      rewrite Hp, Hp1. by rewrite <- (assoc_L (++)).
    + assert (criados (o :: os) = criados os) as ->.
      { unfold criados. cbn. destruct o; try done. by destruct (Ho novo_id). }
      rewrite <- Hc1. split_and!; [done..|]. by rewrite Hp, Hp1.
Qed.

(** The ids of one session: [main] on two loaded collections. *)
Lemma main_ids tasks archived agora opcs :
  let st0 := carregar_dados tasks archived in
  let r := main tasks archived agora opcs in
  let antigos := id <$> (tasks ++ archived) in
  let novos := criados r.2 in
  ID_COUNTER st0 = maior_id (tasks ++ archived) + 1
  ∧ 1 ≤ ID_COUNTER st0
  ∧ (∀ x, x ∈ antigos → x ≤ maior_id (tasks ++ archived))
  ∧ (maior_id (tasks ++ archived) = 0
     ∨ maior_id (tasks ++ archived) ∈ antigos)
  ∧ novos = seqZ (ID_COUNTER st0) (Z.of_nat (length novos))
  ∧ (∀ i j x y, (i < j)%nat → novos !! i = Some x → novos !! j = Some y →
       x < y)
  ∧ (∀ x, x ∈ novos → (x ∉ antigos) ∧ ID_COUNTER st0 ≤ x < ID_COUNTER r.1)
  ∧ ids_de r.1 ≡ₚ antigos ++ novos
  ∧ (NoDup antigos → NoDup (ids_de r.1)).
Proof.
  cbv zeta. unfold main.
  destruct (maior_id_fold (tasks ++ archived) 0) as (Hpos & Hmax & Hwit).
  fold (maior_id (tasks ++ archived)) in Hpos, Hmax, Hwit.
  set (st0 := carregar_dados tasks archived).
  pose proof (menu_ids (Op5 agora) st0) as Hsweep. cbv zeta in Hsweep.
  cbn [menu] in Hsweep.
  destruct Hsweep as [(Ho & _)|(_ & Hc0 & Hp0)].
  { exfalso. revert Ho. unfold arquivar_tarefas_antigas. cbv zeta.
    by case_match. }
  set (st1 := (arquivar_tarefas_antigas agora st0).1) in *.
  destruct (sessao_ids opcs st1) as (Hseq & Hc & Hp).
  set (r := sessao opcs st1) in *. rewrite Hc0 in Hseq, Hc.
  assert (∀ x, x ∈ id <$> (tasks ++ archived) → x ≤ maior_id (tasks ++ archived))
    as Hmax'.
  { intros x (t & -> & Hin)%list_elem_of_fmap. by apply Hmax. }
  assert (∀ x, x ∈ criados r.2 →
            (x ∉ id <$> (tasks ++ archived))
            ∧ ID_COUNTER st0 ≤ x < ID_COUNTER r.1) as Hnovo.
  { intros x Hx. rewrite Hseq, elem_of_seqZ in Hx. split; [|lia].
    intros Hin%Hmax'. cbn in Hx. lia. }
  split_and!; [done|cbn; lia|done..| | |done| |].
  - done.
  - intros i j x y Hlt Hi Hj. rewrite Hseq in Hi, Hj.
    apply lookup_seqZ in Hi as [-> _]. apply lookup_seqZ in Hj as [-> _]. lia.
  - by rewrite Hp, Hp0.
  - intros Hnd. rewrite Hp, Hp0. apply NoDup_app. split_and!; [done| |].
    + intros x Hx Hx'. by destruct (Hnovo x Hx').
    + rewrite Hseq. apply NoDup_seqZ.
Qed.

Lemma historico_NoDup ss tasks archived :
  NoDup (id <$> (tasks ++ archived)) →
  NoDup (id <$> ((historico ss tasks archived).1
                 ++ (historico ss tasks archived).2)).
Proof.
  revert tasks archived.
  induction ss as [|[agora opcs] ss IH]; intros tasks archived Hnd; [done|].
  cbn [historico]. apply IH.
  by apply (main_ids tasks archived agora opcs).
Qed.

(** C7: in a session ([main]: load, sweep, then any choices of the menu)
    the counter starts one above the largest id found in the two
    collections; the ids handed out are the consecutive integers from
    there on, so they increase strictly in creation order and none equals
    an id that was loaded; the ids present at the end are the loaded ones
    and the created ones, whatever was archived or logically deleted in
    between, so they are pairwise distinct when the loaded ones were, as
    they are in every store that sessions starting from empty files
    leave behind. *)
Theorem ids_unicos_e_crescentes tasks archived agora opcs :
  let st0 := carregar_dados tasks archived in
  let r := main tasks archived agora opcs in
  let antigos := id <$> (tasks ++ archived) in
  let novos := criados r.2 in
  ID_COUNTER st0 = maior_id (tasks ++ archived) + 1
  ∧ 1 ≤ ID_COUNTER st0
  ∧ (∀ x, x ∈ antigos → x ≤ maior_id (tasks ++ archived))
  ∧ (maior_id (tasks ++ archived) = 0
     ∨ maior_id (tasks ++ archived) ∈ antigos)
  ∧ novos = seqZ (ID_COUNTER st0) (Z.of_nat (length novos))
  ∧ (∀ i j x y, (i < j)%nat → novos !! i = Some x → novos !! j = Some y →
       x < y)
  ∧ (∀ x, x ∈ novos → (x ∉ antigos) ∧ ID_COUNTER st0 ≤ x < ID_COUNTER r.1)
  ∧ ids_de r.1 ≡ₚ antigos ++ novos
  ∧ (NoDup antigos → NoDup (ids_de r.1))
  ∧ (∀ ss, NoDup (id <$> ((historico ss [] []).1 ++ (historico ss [] []).2))).
Proof.
  cbv zeta.
  pose proof (main_ids tasks archived agora opcs) as Hm. cbv zeta in Hm.
  destruct Hm as (? & ? & ? & ? & ? & ? & ? & ? & ?).
  split_and!; [done..|].
  intros ss. apply historico_NoDup. constructor.
Qed.

(** C6, at the input that breaks it: a task created with the origin typed
    as E-mail passes validation and is stored with the origin E-Mail, which
    is none of E-mail, Telefone, Chamado do Sistema.  What holds for every
    created task is that its priority is one of the four and its origin is
    E-Mail, Telefone or Chamado do Sistema. *)
Theorem criar_tarefa_origem_email agora st :
  let r := criar_tarefa agora (u "Fix bug") (u "") (u "Alta") (u "E-mail") st in
  (∃ t, r = (mk_estado (TASKS st ++ [t]) (ARCHIVED_TASKS st) (ID_COUNTER st + 1),
             TarefaCriada (ID_COUNTER st))
        ∧ prioridade t = u "Alta"
        ∧ origem t = u "E-Mail"
        ∧ origem t ∉ ORIGENS)
  ∧ (∀ a b c d st' n,
       criar_tarefa agora a b c d st = (st', TarefaCriada n) →
       ∃ t, TASKS st' = TASKS st ++ [t]
            ∧ prioridade t ∈ PRIORITIES
            ∧ origem t ∈ [u "E-Mail"; u "Telefone"; u "Chamado do Sistema"]).
Proof.
  cbv zeta. split.
  - eexists. split; [reflexivity|]. cbn [prioridade origem].
    split_and!; [done..|]. compute_done.
  - intros a b c d st' n Hcria.
    destruct (criar_tarefa_valores _ _ _ _ _ _ _ _ Hcria)
      as (t & ? & _ & _ & _ & ? & ?).
    by exists t.
Qed.

End Propriedades.

(** * Worked examples *)



(** The order example of the specification, evaluated. *)
Example verificar_urgencia_baixa_urgente_alta :
  let r := verificar_urgencia ex_urgencia in
  prioridade <$> TASKS ex_urgencia = [u "Baixa"; u "Urgente"; u "Alta"]
  ∧ status <$> TASKS r.1 = [Pendente; Fazendo; Pendente]
  ∧ prioridade <$> tarefas_exibidas r.2 = [u "Urgente"].
Proof. by vm_compute. Qed.


(** C3 at a pending task: completed at [ex_agora], completed again at
    [ex_depois]. *)
Lemma concluir_tarefa_idempotente_exemplo :
  let st := mk_estado [ex_velha; ex_pendente] [] 4 in
  let r1 := concluir_tarefa ex_agora (Some 3) st in
  let r2 := concluir_tarefa ex_depois (Some 3) r1.1 in
  encontrar_tarefa_por_id (TASKS st) 3 = Some (1%nat, ex_pendente)
  ∧ status ex_pendente ≠ Concluida
  ∧ r2 = (r1.1, JaConcluida)
  ∧ encontrar_tarefa_por_id (TASKS r2.1) 3
    = Some (1%nat, concluida_em (u "2024-01-09T00:00:00") ex_pendente).
Proof.
  cbv zeta.
  assert (encontrar_tarefa_por_id [ex_velha; ex_pendente] 3
          = Some (1%nat, ex_pendente)) as Hf by by vm_compute.
  assert (status ex_pendente ≠ Concluida) as Hs by by vm_compute.
  destruct (concluir_tarefa_idempotente ex_agora ex_depois
              (mk_estado [ex_velha; ex_pendente] [] 4) 3 1 ex_pendente Hf)
    as [_ Hfirst].
  destruct (Hfirst Hs) as (_ & Hf1 & _ & _ & _ & Hr2).
  split_and!; [done..|]. by rewrite Hr2.
Defined.


(** C5 at a task with priority Baixa. *)
Lemma atualizar_prioridade_valida_exemplo :
  let st := mk_estado [ex_velha; ex_pendente] [] 4 in
  encontrar_tarefa_por_id (TASKS st) 3 = Some (1%nat, ex_pendente)
  ∧ atualizar_prioridade (Some 3) (u "urgente") st
    = atualizar_prioridade (Some 3) (u "Urgente") st
  ∧ atualizar_prioridade (Some 3) (u "Crítica") st = (st, PrioridadeInvalida)
  ∧ atualizar_prioridade (Some 3) (u " mÉDIA ") st
    = (mk_estado [ex_velha; set_prioridade (u "Média") ex_pendente] [] 4,
       PrioridadeAlterada 3 (u "Média")).
Proof.
  cbv zeta.
  assert (encontrar_tarefa_por_id [ex_velha; ex_pendente] 3
          = Some (1%nat, ex_pendente)) as Hf by by vm_compute.
  destruct (atualizar_prioridade_valida
              (mk_estado [ex_velha; ex_pendente] [] 4) 3 1 ex_pendente Hf)
    as (Hsame & _ & Hbad & _ & _).
  split_and!; [done..|]. by vm_compute.
Defined.

(** C7 at a session that creates, deletes, completes and archives. *)
Lemma ids_unicos_e_crescentes_exemplo :
  let r := main [ex_pendente; ex_critica] [ex_velha] ex_agora ex_opcoes in
  NoDup (id <$> ([ex_pendente; ex_critica] ++ [ex_velha]))
  ∧ NoDup (ids_de r.1)
  ∧ criados r.2 = [6; 7]
  ∧ id <$> ARCHIVED_TASKS r.1 = [1]
  ∧ ID_COUNTER r.1 = 8.
Proof.
  cbv zeta.
  assert (NoDup (id <$> ([ex_pendente; ex_critica] ++ [ex_velha]))) as Hnd
    by compute_done.
  destruct (ids_unicos_e_crescentes [ex_pendente; ex_critica] [ex_velha]
              ex_agora ex_opcoes) as (_ & _ & _ & _ & _ & _ & _ & _ & Hfinal & _).
  split_and!; [done|by apply Hfinal|by vm_compute..].
Defined.

(** C8 at [ex_arquivadas]. *)
Lemma relatorio_arquivadas_filtra_exemplo :
  let r := relatorio_arquivadas ex_arquivadas in
  ex_excluida ∈ ARCHIVED_TASKS ex_arquivadas
  ∧ status ex_excluida = Excluida
  ∧ (ex_excluida ∉ tarefas_exibidas r.2)
  ∧ ex_excluida ∈ ARCHIVED_TASKS r.1
  ∧ tarefas_exibidas r.2 = [ex_velha; ex_recente].
Proof.
  cbv zeta.
  assert (ex_excluida ∈ ARCHIVED_TASKS ex_arquivadas) as Hin by compute_done.
  destruct (relatorio_arquivadas_filtra ex_arquivadas)
    as (_ & Hex & Hnot & _).
  destruct (Hnot ex_excluida Hin eq_refl) as [Hout Hstill].
  split_and!; [done..|]. rewrite Hex. by vm_compute.
Defined.

(** C9 at a logically deleted task. *)
Lemma concluir_tarefa_excluida_exemplo :
  let st := mk_estado [ex_velha; ex_excluida] [] 5 in
  let r := concluir_tarefa ex_agora (Some 4) st in
  encontrar_tarefa_por_id (TASKS st) 4 = Some (1%nat, ex_excluida)
  ∧ status ex_excluida = Excluida
  ∧ r.2 = TarefaConcluida 4 (u "2024-01-09T00:00:00")
  ∧ encontrar_tarefa_por_id (TASKS r.1) 4
    = Some (1%nat, concluida_em (u "2024-01-09T00:00:00") ex_excluida).
Proof.
  cbv zeta.
  assert (encontrar_tarefa_por_id [ex_velha; ex_excluida] 4
          = Some (1%nat, ex_excluida)) as Hf by by vm_compute.
  destruct (concluir_tarefa_excluida ex_agora
              (mk_estado [ex_velha; ex_excluida] [] 5) 4 1 ex_excluida Hf
              eq_refl) as (Hr & Hf' & _).
  split_and!; [done..| |done]. by rewrite Hr.
Defined.


(** The scenario of the specification: create, complete, and sweep ten
    days after the completion. *)
Example cenario_criar_concluir_arquivar :
  let r := sessao [Op1 (mk_datetime 2024 1 1 10 0 0 0)
                     (u "Fix bug") (u "") (u "Alta") (u "E-mail");
                   Op4 (mk_datetime 2024 1 2 12 3 4 0) (Some 1);
                   Op5 (mk_datetime 2024 1 12 12 3 4 0)]
             (carregar_dados [] []) in
  r.2 = [TarefaCriada 1; TarefaConcluida 1 (u "2024-01-02T12:03:04");
         Arquivadas 1]
  ∧ TASKS r.1 = []
  ∧ id <$> ARCHIVED_TASKS r.1 = [1]
  ∧ status <$> ARCHIVED_TASKS r.1 = [Concluida].
Proof. by vm_compute. Qed.

(** * Further properties *)

Section Complementos.
Context `{IsoParser}.

(** ** Validation is matching in lower case *)

Ltac classes_cp :=
  repeat match goal with
    | |- context [is_upper_l1 ?c] =>
        let E := fresh "Hup" in
        destruct (is_upper_l1 c) eqn:E;
        [apply is_upper_l1_spec in E
        |apply not_true_iff_false in E; rewrite is_upper_l1_spec in E]
    | |- context [is_lower_l1 ?c] =>
        let E := fresh "Hlo" in
        destruct (is_lower_l1 c) eqn:E;
        [apply is_lower_l1_spec in E
        |apply not_true_iff_false in E; rewrite is_lower_l1_spec in E]
    | |- context [(?a =? ?b)%N] => destruct (N.eqb_spec a b)
    end.

(** A word that starts with a capital ASCII letter other than S and goes
    on in lower case is what [capitalize] gives exactly for the strings
    that spell it in any mix of cases. *)
Lemma capitalize_iff_lower (W0 : N) (W' s : str) :
  (0x41 ≤ W0 ≤ 0x5A)%N → W0 ≠ 0x53%N → lower W' = W' →
  capitalize s = W0 :: W' ↔ lower s = (W0 + 32)%N :: W'.
Proof.
  intros HW0 HS HW'. destruct s as [|c r]; [done|].
  cbn [capitalize]. change (lower (c :: r)) with (lower_cp c ++ lower r).
  unfold title_cp, lower_cp.
  classes_cp; subst; cbn [app]; split; intros Heq; simplify_eq;
    try lia; f_equal; lia.
Qed.

Lemma elem_of_capitalize_lower (ws : list str) (s : str) :
  Forall (λ w, ∃ W0 W', w = W0 :: W' ∧ (0x41 ≤ W0 ≤ 0x5A)%N
                        ∧ W0 ≠ 0x53%N ∧ lower W' = W') ws →
  capitalize s ∈ ws ↔ lower s ∈ lower <$> ws.
Proof.
  induction 1 as [|w ws (W0 & W' & -> & HW0 & HS & HW') _ IH].
  - cbn. by rewrite !elem_of_nil.
  - cbn [fmap list_fmap]. rewrite !elem_of_cons, IH.
    rewrite (capitalize_iff_lower W0 W' s) by done.
    change (lower (W0 :: W')) with (lower_cp W0 ++ lower W'). rewrite HW'.
    unfold lower_cp.
    replace (is_upper_l1 W0) with true
      by (symmetry; apply is_upper_l1_spec; lia).
    done.
Qed.

Lemma validar_prioridade_lower s :
  validar_prioridade s = true ↔ lower s ∈ prioridades_minusculas.
Proof.
  unfold validar_prioridade. rewrite bool_decide_eq_true.
  rewrite (elem_of_capitalize_lower PRIORITIES); [done|].
  repeat constructor; eexists _, _; (split; [reflexivity|]);
    split_and!; by vm_compute.
Qed.


(** X1: [validar_prioridade] accepts exactly the strings that, in lower case,
    spell urgente, alta, média or baixa; so it gives the same answer for a
    string, for its lower-case form and for its capitalized form, and it
    does not strip: a string with a blank at either end is rejected. *)
Theorem validar_prioridade_sem_caixa s :
  (validar_prioridade s = true ↔ lower s ∈ prioridades_minusculas)
  ∧ validar_prioridade (lower s) = validar_prioridade s
  ∧ validar_prioridade (capitalize s) = validar_prioridade s
  ∧ validar_prioridade (u " " ++ s) = false
  ∧ validar_prioridade (s ++ u " ") = false.
Proof.
  split_and!.
  - apply validar_prioridade_lower.
  - apply eq_iff_eq_true. by rewrite !validar_prioridade_lower, lower_lower.
  - unfold validar_prioridade. by rewrite capitalize_capitalize.
  - apply not_true_is_false. rewrite validar_prioridade_lower.
    change (lower (u " " ++ s)) with (32%N :: lower s).
    unfold prioridades_minusculas. rewrite !elem_of_cons, elem_of_nil.
    intros [?|[?|[?|[?|[]]]]]; discriminate.
  - apply not_true_is_false. rewrite validar_prioridade_lower.
    unfold lower. rewrite flat_map_app. fold (lower s).
    change (flat_map lower_cp (u " ")) with [32%N].
    unfold prioridades_minusculas. rewrite !elem_of_cons, elem_of_nil.
    intros [Hs|[Hs|[Hs|[Hs|[]]]]];
      apply (f_equal (last (A:=N))) in Hs; rewrite last_snoc in Hs;
      by vm_compute in Hs.
Qed.

(** ** [title] and [lower] *)










(** ** What [criar_tarefa] accepts and what it stores *)




(** ** Finding, deleting and completing *)

Lemma encontrar_None l tid :
  encontrar_tarefa_por_id l tid = None ↔ ∀ t, t ∈ l → id t ≠ tid.
Proof.
  unfold encontrar_tarefa_por_id. by rewrite list_find_None, Forall_forall.
Qed.

Lemma encontrar_snoc l t tid :
  encontrar_tarefa_por_id (l ++ [t]) tid
  = match encontrar_tarefa_por_id l tid with
    | Some it => Some it
    | None => if decide (id t = tid) then Some (length l, t) else None
    end.
Proof.
  unfold encontrar_tarefa_por_id.
  destruct (list_find (λ t, id t = tid) l) as [[i x]|] eqn:Hf.
  - by apply list_find_app_l.
  - rewrite list_find_app_r by done. cbn. by case_decide.
Qed.

(** X4: a created task is found by its id right away: when every active id is
    below the counter, the new id resolves to the new task, at the end of
    the list, every other id resolves as before, and every active id is
    again below the counter. *)
Theorem criar_tarefa_encontrar agora a b c d st st' n :
  (∀ t, t ∈ TASKS st → id t < ID_COUNTER st) →
  criar_tarefa agora a b c d st = (st', TarefaCriada n) →
  ∃ t,
    TASKS st' = TASKS st ++ [t]
    ∧ encontrar_tarefa_por_id (TASKS st') n = Some (length (TASKS st), t)
    ∧ (∀ tid, tid ≠ n →
         encontrar_tarefa_por_id (TASKS st') tid
         = encontrar_tarefa_por_id (TASKS st) tid)
    ∧ (∀ t', t' ∈ TASKS st' → id t' < ID_COUNTER st').
Proof.
  intros Hinv.
  destruct (criar_tarefa_casos agora a b c d st)
    as [(o & -> & Ho)|(t & -> & Hid & _)].
  { intros [= _ ->]. by destruct (Ho n). }
  intros [= <- <-]. exists t. cbn [TASKS ID_COUNTER]. split_and!; [done| | |].
  - rewrite encontrar_snoc.
    rewrite (proj2 (encontrar_None _ _)).
    + by rewrite decide_True.
    + intros t' Ht' Heq. specialize (Hinv t' Ht'). lia.
  - intros tid Hne. rewrite encontrar_snoc.
    destruct (encontrar_tarefa_por_id (TASKS st) tid); [done|].
    rewrite decide_False; [done|congruence].
  - intros t' [Ht'|Ht']%elem_of_app.
    + specialize (Hinv t' Ht'). lia.
    + apply list_elem_of_singleton in Ht' as ->. lia.
Qed.

(** X5: an id that no active task has is not found, whether or not an archived
    task has it: changing the priority, completing and deleting then
    report it and leave the state as it was. *)
Theorem id_desconhecido agora nova st tid :
  (∀ t, t ∈ TASKS st → id t ≠ tid) →
  atualizar_prioridade (Some tid) nova st = (st, NaoEncontrada)
  ∧ concluir_tarefa agora (Some tid) st = (st, NaoEncontrada)
  ∧ excluir_tarefa (Some tid) st = (st, NaoEncontrada).
Proof.
  intros Hn%encontrar_None.
  unfold atualizar_prioridade, concluir_tarefa, excluir_tarefa.
  by rewrite Hn.
Qed.

Lemma excluir_tarefa_ok st tid i t :
  encontrar_tarefa_por_id (TASKS st) tid = Some (i, t) →
  excluir_tarefa (Some tid) st
  = (set_TASKS (alter (set_status Excluida) i (TASKS st)) st,
     TarefaExcluida tid).
Proof. intros Hf. unfold excluir_tarefa. by rewrite Hf. Qed.


(** X7: completion after deletion stamps again: whatever the status and the
    completion date of the task were, deleting it and then completing it
    at [agora] leaves it Concluída with [agora] as completion date. *)
Theorem concluir_apos_excluir agora st tid i t :
  encontrar_tarefa_por_id (TASKS st) tid = Some (i, t) →
  let st1 := (excluir_tarefa (Some tid) st).1 in
  let r := concluir_tarefa agora (Some tid) st1 in
  let t' := concluida_em (agora_iso agora) (set_status Excluida t) in
  r.2 = TarefaConcluida tid (agora_iso agora)
  ∧ encontrar_tarefa_por_id (TASKS r.1) tid = Some (i, t')
  ∧ status t' = Concluida
  ∧ data_conclusao t' = Some (agora_iso agora)
  ∧ (valid_datetime agora = true → parse_iso (data_conclusao t') = Some agora).
Proof.
  intros Hf. cbv zeta. rewrite (excluir_tarefa_ok _ _ _ _ Hf).
  cbn [fst set_TASKS TASKS].
  assert (encontrar_tarefa_por_id (alter (set_status Excluida) i (TASKS st)) tid
          = Some (i, set_status Excluida t)) as Hf' by by apply encontrar_alter.
  rewrite (concluir_tarefa_carimba agora
             (set_TASKS (alter (set_status Excluida) i (TASKS st)) st)
             tid i (set_status Excluida t)) by done.
  cbn [fst snd set_TASKS TASKS].
  split_and!; [done| |done..|apply parse_iso_agora_iso].
  by apply encontrar_alter.
Qed.

(** ** More on the retention sweep *)

Lemma filter_vazio {A} (P : A → Prop) `{!∀ x, Decision (P x)} (l : list A) :
  (∀ x, x ∈ l → ¬ P x) → filter P l = [].
Proof.
  induction l as [|x l IH]; intros Hl; [done|].
  rewrite filter_cons, decide_False by (apply Hl; apply list_elem_of_here).
  apply IH. intros y Hy. apply Hl. by apply list_elem_of_further.
Qed.

Lemma deve_arquivar_status limite t :
  status t ≠ Concluida → deve_arquivar limite t = false.
Proof. intros Hs. unfold deve_arquivar. by rewrite bool_decide_eq_false_2. Qed.


Lemma arquivar_tarefas_antigas_saida agora st :
  let limite := dt_us agora - 7 * dia_us in
  let a_mover := filter (λ t, deve_arquivar limite t) (TASKS st) in
  (arquivar_tarefas_antigas agora st).2
  = match a_mover with
    | [] => NadaParaArquivar
    | _ :: _ => Arquivadas (length a_mover)
    end.
Proof.
  cbv zeta. unfold arquivar_tarefas_antigas. cbv zeta.
  by destruct (filter _ (TASKS st)).
Qed.




(** X10: logical deletion keeps a task out of the archive: whatever its status
    and completion date were, a task that was deleted stays active through
    a sweep at any time, and the sweep does not archive it. *)
Theorem excluir_impede_arquivamento agora st tid i t :
  encontrar_tarefa_por_id (TASKS st) tid = Some (i, t) →
  let st1 := (excluir_tarefa (Some tid) st).1 in
  let st2 := (arquivar_tarefas_antigas agora st1).1 in
  set_status Excluida t ∈ TASKS st1
  ∧ set_status Excluida t ∈ TASKS st2
  ∧ ∀ x, x ∈ ARCHIVED_TASKS st2 → x ∈ ARCHIVED_TASKS st ∨ status x = Concluida.
Proof.
  intros Hf. cbv zeta. rewrite (excluir_tarefa_ok _ _ _ _ Hf). cbn [fst].
  set (st1 := set_TASKS (alter (set_status Excluida) i (TASKS st)) st).
  assert (set_status Excluida t ∈ TASKS st1) as Hin.
  { apply list_find_Some in Hf as (Hi & _).
    apply (list_elem_of_lookup_2 _ i). cbn.
    by rewrite list_lookup_alter_eq, Hi. }
  destruct (arquivar_tarefas_antigas_estado agora st1) as (Ht & Ha & _).
  rewrite Ht, Ha. split_and!; [done| |].
  - apply list_elem_of_filter. split; [|done].
    rewrite deve_arquivar_status; [by intros []|done].
  - intros x [Hx|Hx]%elem_of_app; [by left|right].
    apply list_elem_of_filter in Hx as [Hd _]. apply Is_true_true in Hd.
    by apply deve_arquivar_spec in Hd as [Hs _].
Qed.

(** ** Working through the pending tasks *)

Lemma verificar_urgencia_escolhe st :
  (∃ t, t ∈ TASKS st ∧ status t = Pendente) →
  ∃ i t, TASKS st !! i = Some t ∧ status t = Pendente ∧ seleciona st i t.
Proof.
  intros (t0 & Hin & Hst).
  destruct (primeira_por_prioridade PRIORITY_ORDER (pendentes_de (TASKS st)))
    as [[i t]|] eqn:Hsel.
  - pose proof (verificar_urgencia_nivel _ _ Hsel) as Hres.
    apply primeira_por_prioridade_Some in Hsel as (k & pr & _ & Hfind & _).
    apply list_find_Some in Hfind as (Hi & [_ Hs] & _). by exists i, t.
  - destruct (list_find_elem_of (λ t, status t = Pendente) _ _ Hin Hst)
      as [[i t] Hfind].
    pose proof (verificar_urgencia_primeira st (i, t)) as Hres.
    rewrite head_pendentes in Hres. specialize (Hres Hfind Hsel).
    apply list_find_Some in Hfind as (Hi & Hs & _). by exists i, t.
Qed.

Lemma pendentes_alter l i t :
  l !! i = Some t → status t = Pendente →
  S (length (filter (λ t, status t = Pendente)
               (alter (set_status Fazendo) i l)))
  = length (filter (λ t, status t = Pendente) l).
Proof.
  revert i. induction l as [|x l IH]; intros [|i] Hi Hs; simplify_eq/=.
  - rewrite filter_cons_False by done. by rewrite filter_cons_True.
  - rewrite !filter_cons. case_decide; cbn; [f_equal|]; by apply IH.
Qed.

Lemma n_pendentes_zero st :
  n_pendentes st = 0%nat ↔ ∀ t, t ∈ TASKS st → status t ≠ Pendente.
Proof.
  unfold n_pendentes. rewrite length_zero_iff_nil. split.
  - intros Hnil t Hin Hs. by apply (filter_nil_not_elem_of _ _ t Hnil).
  - intros Hn. by apply filter_vazio.
Qed.

Lemma n_pendentes_verificar st :
  (∃ t, t ∈ TASKS st ∧ status t = Pendente) →
  S (n_pendentes (verificar_urgencia st).1) = n_pendentes st.
Proof.
  intros (i & t & Hi & Hs & ->)%verificar_urgencia_escolhe.
  unfold n_pendentes. cbn. by apply (pendentes_alter _ _ t).
Qed.

Lemma verificar_urgencia_vezes_zera n st :
  n_pendentes st = n → n_pendentes (verificar_urgencia_vezes n st) = 0%nat.
Proof.
  revert st. induction n as [|n IH]; intros st Hn; [done|].
  cbn [verificar_urgencia_vezes]. apply IH.
  assert (∃ t, t ∈ TASKS st ∧ status t = Pendente) as Hex.
  { unfold n_pendentes in Hn.
    destruct (filter _ (TASKS st)) as [|t l] eqn:Hf; [done|].
    assert (t ∈ filter (λ t, status t = Pendente) (TASKS st)) as Hin
      by (rewrite Hf; apply list_elem_of_here).
    apply list_elem_of_filter in Hin as [Hs Hin]. by exists t. }
  apply n_pendentes_verificar in Hex. lia.
Qed.

(** X11: [verificar_urgencia] touches pending tasks only: a task that is not
    pending stays as it is, whatever its priority; when a task is pending,
    one call leaves one pending task less, so as many calls as there are
    pending tasks leave none, and the call after that reports that there
    are no pending tasks and changes nothing. *)
Theorem verificar_urgencia_esgota st :
  let fim := verificar_urgencia_vezes (n_pendentes st) st in
  (∀ j t, TASKS st !! j = Some t → status t ≠ Pendente →
     TASKS (verificar_urgencia st).1 !! j = Some t)
  ∧ ((∃ t, t ∈ TASKS st ∧ status t = Pendente) →
     S (n_pendentes (verificar_urgencia st).1) = n_pendentes st)
  ∧ n_pendentes fim = 0%nat
  ∧ verificar_urgencia fim = (fim, NaoHaPendentes).
Proof.
  cbv zeta. split_and!.
  - intros j t Hj Hs.
    destruct (n_pendentes st) as [|n] eqn:Hn.
    + rewrite verificar_urgencia_vazia; [done|]. by apply n_pendentes_zero.
    + assert (∃ t, t ∈ TASKS st ∧ status t = Pendente) as Hex.
      { unfold n_pendentes in Hn.
        destruct (filter _ (TASKS st)) as [|x l] eqn:Hf; [done|].
        assert (x ∈ filter (λ t, status t = Pendente) (TASKS st)) as Hin
          by (rewrite Hf; apply list_elem_of_here).
        apply list_elem_of_filter in Hin as [Hx Hin]. by exists x. }
      apply verificar_urgencia_escolhe in Hex as (i & t' & Hi & Hs' & ->).
      cbn. rewrite list_lookup_alter_ne; [done|]. intros <-. congruence.
  - apply n_pendentes_verificar.
  - by apply verificar_urgencia_vezes_zera.
  - apply verificar_urgencia_vazia, n_pendentes_zero.
    by apply verificar_urgencia_vezes_zera.
Qed.

(** X12: in a store whose pending tasks all have one of the four priorities,
    as the tasks the program writes do, the search by priority of
    [verificar_urgencia] always finds a task: the fallback to the first
    pending task is not taken. *)
Theorem verificar_urgencia_sem_fallback st :
  (∀ t, t ∈ TASKS st → status t = Pendente → prioridade t ∈ PRIORITIES) →
  (∃ t, t ∈ TASKS st ∧ status t = Pendente) →
  ∃ it, primeira_por_prioridade PRIORITY_ORDER (pendentes_de (TASKS st))
        = Some it
        ∧ TASKS st !! it.1 = Some it.2
        ∧ prioridade it.2 ∈ PRIORITIES
        ∧ seleciona st it.1 it.2.
Proof.
  intros Hbem (t0 & Hin & Hst).
  destruct (primeira_por_prioridade PRIORITY_ORDER (pendentes_de (TASKS st)))
    as [[i t]|] eqn:Hsel.
  - exists (i, t). pose proof (verificar_urgencia_nivel _ _ Hsel) as Hres.
    apply primeira_por_prioridade_Some in Hsel as (k & pr & Hk & Hfind & _).
    apply list_find_Some in Hfind as (Hi & [Hp Hs] & _).
    split_and!; [done..| |done].
    apply Hbem; [|done]. by eapply list_elem_of_lookup_2.
  - exfalso. rewrite primeira_por_prioridade_None in Hsel.
    specialize (Hsel _ (Hbem t0 Hin Hst)).
    rewrite list_find_None, Forall_forall in Hsel. by apply (Hsel t0 Hin).
Qed.

(** ** What a session keeps *)

Lemma status_diferentes :
  Pendente ≠ Fazendo ∧ Pendente ≠ Concluida ∧ Pendente ≠ Excluida
  ∧ Fazendo ≠ Concluida ∧ Fazendo ≠ Excluida ∧ Concluida ≠ Excluida.
Proof. split_and!; compute_done. Qed.

Lemma transicao_refl s : transicao s s.
Proof. by left. Qed.

Lemma transicao_trans s1 s2 s3 :
  transicao s1 s2 → transicao s2 s3 → transicao s1 s3.
Proof.
  destruct status_diferentes as (Hpf & Hpc & Hpe & _).
  unfold transicao. revert Hpf Hpc Hpe.
  generalize Pendente Fazendo Concluida Excluida. intros p f c e Hpf Hpc Hpe.
  intros H1 H2. destruct (decide (s3 = s1)) as [?|Hne]; [by left|].
  destruct H2 as [-> |[[-> ->]|[[? ->]| ->]]].
  - done.
  - destruct H1 as [<- |[[_ ?]|[[_ ?]|?]]]; [|done..]. right; left. by split.
  - right; right; left. split; congruence.
  - by right; right; right.
Qed.

Lemma sucessora_refl t : sucessora t t.
Proof.
  unfold sucessora. split_and!; [done..|apply transicao_refl|by left|done|].
  by left.
Qed.

Lemma sucessora_trans t1 t2 t3 :
  sucessora t1 t2 → sucessora t2 t3 → sucessora t1 t3.
Proof.
  intros (? & ? & ? & ? & ? & Ht1 & Hp1 & Hd1 & Hc1)
         (? & ? & ? & ? & ? & Ht2 & Hp2 & Hd2 & Hc2).
  unfold sucessora. split_and!; try congruence.
  - by eapply transicao_trans.
  - destruct Hp2 as [->|?]; [done|by right].
  - auto.
  - intros Hs. destruct (Hc2 Hs) as [Hs2|?]; [|by right].
    destruct (Hc1 Hs2) as [?|?]; [by left|right; auto].
Qed.

Lemma elem_of_alter_inv {A} (f : A → A) i (l : list A) x :
  x ∈ alter f i l → x ∈ l ∨ ∃ y, l !! i = Some y ∧ x = f y.
Proof.
  revert i. induction l as [|a l IH]; intros [|i]; cbn;
    try (by intros ?%elem_of_nil).
  - intros [->|?]%elem_of_cons; [right; by exists a|left].
    by apply list_elem_of_further.
  - intros [->|Hx]%elem_of_cons; [left; apply list_elem_of_here|].
    destruct (IH _ Hx) as [?|?]; [left|by right].
    by apply list_elem_of_further.
Qed.

(** What one turn of the menu does to the store: nothing, or it appends a
    new pending task, or it changes one task into a successor of it, or it
    is the sweep. *)
Lemma menu_formas opc st :
  let r := menu opc st in
  r.1 = st ∧ (∀ n, r.2 ≠ TarefaCriada n)
  ∨ (∃ t, r.1 = mk_estado (TASKS st ++ [t]) (ARCHIVED_TASKS st)
                  (ID_COUNTER st + 1)
          ∧ r.2 = TarefaCriada (id t) ∧ status t = Pendente
          ∧ data_conclusao t = None ∧ bem_formada t)
  ∨ (∃ i t f, TASKS st !! i = Some t
          ∧ r.1 = set_TASKS (alter f i (TASKS st)) st
          ∧ (∀ n, r.2 ≠ TarefaCriada n)
          ∧ sucessora t (f t) ∧ (bem_formada t → bem_formada (f t)))
  ∨ (∃ agora, opc = Op5 agora ∧ r = arquivar_tarefas_antigas agora st).
Proof.
  destruct status_diferentes as (? & ? & ? & ? & ? & ?).
  cbv zeta. destruct opc as [agora a b c d| |tid nova|agora tid|agora|tid| | |];
    cbn [menu].
  - destruct (criar_tarefa_casos agora a b c d st)
      as [(o & -> & Ho)|(t & Heq & Hid & _ & _ & Hp & Hv & Ho & Hvo & Hs & _ & Hd)];
      [by left|].
    right; left. exists t. rewrite Heq, Hid. split_and!; [done..|].
    split_and!.
    + rewrite Hp in *. by apply validar_prioridade_capitalize.
    + rewrite Hs. compute_done.
    + rewrite Ho in *. by apply origem_normalizada_valida.
  - destruct (n_pendentes st) as [|n] eqn:Hn.
    { left. rewrite verificar_urgencia_vazia; [done|].
      by apply n_pendentes_zero. }
    assert (∃ t, t ∈ TASKS st ∧ status t = Pendente) as Hex.
    { unfold n_pendentes in Hn.
      destruct (filter _ (TASKS st)) as [|x l] eqn:Hf; [done|].
      assert (x ∈ filter (λ t, status t = Pendente) (TASKS st)) as Hin
        by (rewrite Hf; apply list_elem_of_here).
      apply list_elem_of_filter in Hin as [Hx Hin]. by exists x. }
    apply verificar_urgencia_escolhe in Hex as (i & t & Hi & Hs & Hsel).
    unfold seleciona in Hsel. rewrite Hsel.
    right; right; left. exists i, t, (set_status Fazendo).
    refine (conj _ (conj _ (conj _ (conj _ _)))); [done..| |].
    + unfold sucessora. cbn. split_and!; [done..| |by left|done|congruence].
      right; left. by split.
    + intros (? & ? & ?). split_and!; [done| |done]. cbn. compute_done.
  - unfold atualizar_prioridade. destruct tid as [tid|]; [|by left].
    destruct (encontrar_tarefa_por_id (TASKS st) tid) as [[i t]|] eqn:Hf;
      [|by left].
    destruct (validar_prioridade (capitalize (strip nova))) eqn:Hv;
      cbn [negb]; [|by left].
    apply list_find_Some in Hf as (Hi & _).
    apply validar_prioridade_capitalize in Hv.
    right; right; left. exists i, t, (set_prioridade (capitalize (strip nova))).
    refine (conj _ (conj _ (conj _ (conj _ _)))); [done..| |].
    + unfold sucessora. cbn.
      split_and!; [done..|apply transicao_refl|by right|done|by left].
    + by intros (? & ? & ?).
  - unfold concluir_tarefa. destruct tid as [tid|]; [|by left].
    destruct (encontrar_tarefa_por_id (TASKS st) tid) as [[i t]|] eqn:Hf;
      [|by left].
    case_bool_decide as Hs; [by left|].
    apply list_find_Some in Hf as (Hi & _).
    right; right; left. exists i, t, (concluida_em (agora_iso agora)).
    refine (conj _ (conj _ (conj _ (conj _ _)))); [done..| |].
    + unfold sucessora. cbn. split_and!; [done..| |by left|eauto|eauto].
      right; right; left. by split.
    + intros (? & ? & ?). split_and!; [done| |done]. cbn. compute_done.
  - right; right; right. by exists agora.
  - unfold excluir_tarefa. destruct tid as [tid|]; [|by left].
    destruct (encontrar_tarefa_por_id (TASKS st) tid) as [[i t]|] eqn:Hf;
      [|by left].
    apply list_find_Some in Hf as (Hi & _).
    right; right; left. exists i, t, (set_status Excluida).
    refine (conj _ (conj _ (conj _ (conj _ _)))); [done..| |].
    + unfold sucessora. cbn. split_and!; [done..| |by left|done|congruence].
      by right; right; right.
    + intros (? & ? & ?). split_and!; [done| |done]. cbn. compute_done.
  - left. unfold relatorio_tarefas. by destruct (TASKS st).
  - left. unfold relatorio_arquivadas. cbv zeta. by destruct (filter _ _).
  - by left.
Qed.

Lemma arquivar_tarefas_antigas_movidas agora st :
  let r := arquivar_tarefas_antigas agora st in
  ∃ a_mover,
    ARCHIVED_TASKS r.1 = ARCHIVED_TASKS st ++ a_mover
    ∧ TASKS st ≡ₚ TASKS r.1 ++ a_mover
    ∧ ID_COUNTER r.1 = ID_COUNTER st
    ∧ Forall (λ t, status t = Concluida ∧ is_Some (data_conclusao t)) a_mover
    ∧ ∀ n, r.2 ≠ TarefaCriada n.
Proof.
  cbv zeta.
  destruct (arquivar_tarefas_antigas_estado agora st) as (Ht & Ha & Hc).
  pose proof (arquivar_tarefas_antigas_saida agora st) as Ho. cbv zeta in Ho.
  set (P := λ t : tarefa, Is_true (deve_arquivar (dt_us agora - 7 * dia_us) t))
    in *.
  exists (filter P (TASKS st)). split_and!; [done| |done| |].
  - rewrite Ht, (comm (++)). symmetry. apply filter_app_complement.
  - apply Forall_forall. intros t [Hd _]%list_elem_of_filter.
    unfold P in Hd. apply Is_true_true in Hd.
    apply deve_arquivar_spec in Hd as (Hs & s & dt & -> & _). eauto.
  - intros n. rewrite Ho. by destruct (filter P (TASKS st)).
Qed.

Lemma menu_bem_formada opc st :
  Forall bem_formada (TASKS st ++ ARCHIVED_TASKS st) →
  Forall bem_formada (TASKS (menu opc st).1 ++ ARCHIVED_TASKS (menu opc st).1).
Proof.
  intros Hb.
  destruct (menu_formas opc st)
    as [[-> _]|[(t & -> & _ & _ & _ & Ht)
       |[(i & t & f & Hi & -> & _ & _ & Hf)|(agora & _ & ->)]]]; [done| | |].
  - cbn. apply Forall_app in Hb as [Ha Hc].
    rewrite !Forall_app. split_and!; [done| |done]. by constructor.
  - cbn. apply Forall_app in Hb as [Ha Hc]. apply Forall_app. split; [|done].
    apply Forall_alter; [done|]. intros x Hx. by simplify_eq.
  - destruct (arquivar_tarefas_antigas_movidas agora st)
      as (mv & -> & Hperm & _).
    apply Forall_app in Hb as [Ha Hc]. rewrite Hperm in Ha.
    apply Forall_app in Ha as [Ha1 Ha2]. by rewrite !Forall_app.
Qed.

Lemma sessao_cons opc opcs st :
  sessao (opc :: opcs) st
  = ((sessao opcs (menu opc st).1).1,
     (menu opc st).2 :: (sessao opcs (menu opc st).1).2).
Proof. cbn [sessao]. by destruct (menu opc st), (sessao _ _). Qed.

Lemma sessao_bem_formada opcs st :
  Forall bem_formada (TASKS st ++ ARCHIVED_TASKS st) →
  Forall bem_formada
    (TASKS (sessao opcs st).1 ++ ARCHIVED_TASKS (sessao opcs st).1).
Proof.
  revert st. induction opcs as [|opc opcs IH]; intros st Hb; [done|].
  rewrite sessao_cons. cbn [fst]. by apply IH, menu_bem_formada.
Qed.

Lemma main_preserva_bem_formada tasks archived agora opcs :
  Forall bem_formada (tasks ++ archived) →
  Forall bem_formada
    (TASKS (main tasks archived agora opcs).1
     ++ ARCHIVED_TASKS (main tasks archived agora opcs).1).
Proof.
  intros Hb. unfold main. apply sessao_bem_formada.
  by apply (menu_bem_formada (Op5 agora) (carregar_dados tasks archived)).
Qed.

Lemma historico_bem_formada ss tasks archived :
  Forall bem_formada (tasks ++ archived) →
  Forall bem_formada
    ((historico ss tasks archived).1 ++ (historico ss tasks archived).2).
Proof.
  revert tasks archived.
  induction ss as [|[agora opcs] ss IH]; intros tasks archived Hb; [done|].
  cbn [historico]. by apply IH, main_preserva_bem_formada.
Qed.

(** X13: the program writes only values of its three closed sets: when every
    task loaded has one of the four priorities, one of the four status
    values and one of the three stored origins, so has every task, active
    or archived, after a run of [main] with any choices; this is so in every
    store that runs starting from empty files leave behind. *)
Theorem main_bem_formada tasks archived agora opcs :
  let r := main tasks archived agora opcs in
  (Forall bem_formada (tasks ++ archived) →
   Forall bem_formada (TASKS r.1 ++ ARCHIVED_TASKS r.1))
  ∧ ∀ ss, Forall bem_formada
            ((historico ss [] []).1 ++ (historico ss [] []).2).
Proof.
  cbv zeta. split; [apply main_preserva_bem_formada|].
  intros ss. apply historico_bem_formada. constructor.
Qed.

Lemma recem_criada_cons o os t : recem_criada os t → recem_criada (o :: os) t.
Proof.
  intros (Hin & ?). split; [|done]. unfold criados in *. cbn [omap].
  destruct o; try done. by apply list_elem_of_further.
Qed.

Lemma menu_sucessoras opc st t' :
  t' ∈ TASKS (menu opc st).1 ++ ARCHIVED_TASKS (menu opc st).1 →
  (∃ t, t ∈ TASKS st ++ ARCHIVED_TASKS st ∧ sucessora t t')
  ∨ recem_criada [(menu opc st).2] t'.
Proof.
  destruct (menu_formas opc st)
    as [[-> _]|[(t & -> & -> & Hs & Hd & Hb)
       |[(i & t & f & Hi & -> & _ & Hsuc & _)|(agora & _ & ->)]]].
  - intros Hin. left. exists t'. split; [done|apply sucessora_refl].
  - cbn [TASKS ARCHIVED_TASKS]. rewrite <- (assoc (++)).
    intros [Hin|[Hin|Hin]%elem_of_app]%elem_of_app.
    + left. exists t'. split; [|apply sucessora_refl].
      apply elem_of_app. by left.
    + apply list_elem_of_singleton in Hin as ->. right.
      split; [|done]. apply list_elem_of_here.
    + left. exists t'. split; [|apply sucessora_refl].
      apply elem_of_app. by right.
  - cbn [set_TASKS TASKS ARCHIVED_TASKS].
    intros [Hin|Hin]%elem_of_app; left.
    + apply elem_of_alter_inv in Hin as [Hin|(y & Hy & ->)].
      * exists t'. split; [|apply sucessora_refl]. apply elem_of_app. by left.
      * simplify_eq. exists t. split; [|done]. apply elem_of_app. left.
        by eapply list_elem_of_lookup_2.
    + exists t'. split; [|apply sucessora_refl]. apply elem_of_app. by right.
  - destruct (arquivar_tarefas_antigas_movidas agora st)
      as (mv & -> & Hperm & _).
    intros Hin. left. exists t'. split; [|apply sucessora_refl].
    rewrite Hperm. rewrite !elem_of_app in *. tauto.
Qed.

Lemma sessao_sucessoras opcs st t' :
  t' ∈ TASKS (sessao opcs st).1 ++ ARCHIVED_TASKS (sessao opcs st).1 →
  (∃ t, t ∈ TASKS st ++ ARCHIVED_TASKS st ∧ sucessora t t')
  ∨ (∃ t, recem_criada (sessao opcs st).2 t ∧ sucessora t t').
Proof.
  revert st. induction opcs as [|opc opcs IH]; intros st.
  - intros Hin. left. exists t'. split; [done|apply sucessora_refl].
  - rewrite sessao_cons. cbn [fst snd].
    intros [(t1 & Hin1 & Hs1)|(t0 & Hn & Hs0)]%IH.
    + apply menu_sucessoras in Hin1 as [(t & Hin & Hs)|Hn].
      * left. exists t. split; [done|]. by eapply sucessora_trans.
      * right. exists t1. split; [|done].
        destruct Hn as (Hid & ?). split; [|done].
        unfold criados in *. cbn [omap] in *.
        destruct (menu opc st).2; try (by apply elem_of_nil in Hid).
        apply list_elem_of_singleton in Hid as ->. apply list_elem_of_here.
    + right. exists t0. split; [|done]. by apply recem_criada_cons.
Qed.

(** X14: every task in the store after a run of [main] is a task that was
    loaded, or a task created in the run, as it was then or changed by the
    operations since: its id, title, description, origin and creation date
    are the same, its status never went back to Pendente, went to Fazendo
    only from Pendente, its priority is the same or one of the four, a
    completion date was not erased, and it has one if it became Concluída
    in the run. *)
Theorem main_sucessoras tasks archived agora opcs t' :
  let r := main tasks archived agora opcs in
  t' ∈ TASKS r.1 ++ ARCHIVED_TASKS r.1 →
  ∃ t, ((t ∈ tasks ++ archived) ∨ recem_criada r.2 t)
       ∧ sucessora t t'
       ∧ (status t' = Pendente → status t = Pendente)
       ∧ (status t' = Fazendo → status t = Pendente ∨ status t = Fazendo).
Proof.
  cbv zeta. unfold main. intros Hin.
  assert (∀ t, sucessora t t' →
            (status t' = Pendente → status t = Pendente)
            ∧ (status t' = Fazendo → status t = Pendente ∨ status t = Fazendo))
    as Hst.
  { destruct status_diferentes as (? & ? & ? & ? & ? & ?).
    intros t (_ & _ & _ & _ & _ & Htr & _).
    destruct Htr as [Heq|[[? Heq]|[[? Heq]|Heq]]]; rewrite Heq;
      split; intros ?; try congruence; auto. }
  apply sessao_sucessoras in Hin as [(t1 & Hin1 & Hs1)|(t0 & Hn & Hs0)].
  - apply (menu_sucessoras (Op5 agora)) in Hin1 as [(t & Hin & Hs)|Hn].
    + exists t. assert (sucessora t t') as Hs' by by eapply sucessora_trans.
      destruct (Hst t Hs'). split_and!; [by left|done..].
    + destruct Hn as (Hid & _). cbn [menu] in Hid.
      destruct (arquivar_tarefas_antigas_movidas agora
                  (carregar_dados tasks archived)) as (_ & _ & _ & _ & _ & Ho).
      unfold criados in Hid. cbn [omap] in Hid.
      destruct (arquivar_tarefas_antigas _ _).2 eqn:Heq;
        try (by apply elem_of_nil in Hid).
      by destruct (Ho novo_id).
  - exists t0. destruct (Hst t0 Hs0). split_and!; [by right|done..].
Qed.

Lemma menu_arquivo opc st :
  ∃ novas,
    ARCHIVED_TASKS (menu opc st).1 = ARCHIVED_TASKS st ++ novas
    ∧ Forall (λ t, status t = Concluida ∧ is_Some (data_conclusao t)) novas
    ∧ ((∀ agora, opc ≠ Op5 agora) → novas = []).
Proof.
  destruct (menu_formas opc st)
    as [[-> _]|[(t & -> & _)
       |[(i & t & f & _ & -> & _)|(agora & -> & ->)]]].
  1-3: exists []; cbn; by rewrite app_nil_r.
  destruct (arquivar_tarefas_antigas_movidas agora st)
    as (mv & -> & _ & _ & Hmv & _).
  exists mv. split_and!; [done..|]. intros Hn. by destruct (Hn agora).
Qed.

Lemma sessao_arquivo opcs st :
  ∃ novas,
    ARCHIVED_TASKS (sessao opcs st).1 = ARCHIVED_TASKS st ++ novas
    ∧ Forall (λ t, status t = Concluida ∧ is_Some (data_conclusao t)) novas
    ∧ (Forall (λ opc, ∀ agora, opc ≠ Op5 agora) opcs → novas = []).
Proof.
  revert st. induction opcs as [|opc opcs IH]; intros st.
  { exists []. cbn. by rewrite app_nil_r. }
  rewrite sessao_cons. cbn [fst].
  destruct (menu_arquivo opc st) as (n1 & Ha1 & Hf1 & Hn1).
  destruct (IH (menu opc st).1) as (n2 & -> & Hf2 & Hn2).
  exists (n1 ++ n2). rewrite Ha1, <- (assoc (++)). split_and!; [done| |].
  - by apply Forall_app.
  - intros [Ho Hos]%Forall_cons. by rewrite Hn1, Hn2.
Qed.

(** X15: the archive only grows, and only by the sweep: after any choices of
    the menu the archived tasks are the ones there were, unchanged and in
    their order, followed by tasks that were Concluída with a completion
    date when moved; without option 5 among the choices the archive is as
    it was.  No choice changes, completes or deletes an archived task. *)
Theorem arquivo_so_cresce opcs st :
  let r := sessao opcs st in
  ∃ novas,
    ARCHIVED_TASKS r.1 = ARCHIVED_TASKS st ++ novas
    ∧ ARCHIVED_TASKS st `prefix_of` ARCHIVED_TASKS r.1
    ∧ Forall (λ t, status t = Concluida ∧ is_Some (data_conclusao t)) novas
    ∧ (Forall (λ opc, ∀ agora, opc ≠ Op5 agora) opcs → novas = []).
Proof.
  cbv zeta. destruct (sessao_arquivo opcs st) as (novas & Ha & Hf & Hn).
  exists novas. split_and!; [done| |done..]. rewrite Ha. by eexists.
Qed.

Lemma relatorio_arquivadas_tudo st :
  Forall (λ t, status t ≠ Excluida) (ARCHIVED_TASKS st) →
  tarefas_exibidas (relatorio_arquivadas st).2 = ARCHIVED_TASKS st.
Proof.
  intros Hf. unfold relatorio_arquivadas. cbv zeta.
  assert (filter (λ t, status t ≠ Excluida) (ARCHIVED_TASKS st)
          = ARCHIVED_TASKS st) as ->.
  { induction Hf as [|x l Hx Hl IH]; [done|].
    by rewrite filter_cons_True, IH. }
  destruct (ARCHIVED_TASKS st) as [|x l]; [done|].
  cbn [snd tarefas_exibidas]. rewrite <- list_fmap_compose.
  by rewrite list_fmap_id.
Qed.

(** X16: when no archived task is Excluída at the start, none is after any
    choices of the menu: [relatorio_arquivadas] then shows the whole
    archive, its filter hides nothing, and the maintenance helper
    [limpar_tarefas_excluidas_do_arquivo_de_arquivadas] would leave the
    collections as they are. *)
Theorem relatorio_arquivadas_completo opcs st d :
  Forall (λ t, status t ≠ Excluida) (ARCHIVED_TASKS st) →
  let st' := (sessao opcs st).1 in
  Forall (λ t, status t ≠ Excluida) (ARCHIVED_TASKS st')
  ∧ tarefas_exibidas (relatorio_arquivadas st').2 = ARCHIVED_TASKS st'
  ∧ (limpar_tarefas_excluidas_do_arquivo_de_arquivadas st' d).1 = st'.
Proof.
  intros Hf. cbv zeta.
  destruct status_diferentes as (_ & _ & _ & _ & _ & Hce).
  destruct (sessao_arquivo opcs st) as (novas & Ha & Hn & _).
  assert (Forall (λ t, status t ≠ Excluida)
            (ARCHIVED_TASKS (sessao opcs st).1)) as Hf'.
  { rewrite Ha. apply Forall_app. split; [done|].
    eapply Forall_impl; [exact Hn|]. intros t [Hs _]. congruence. }
  split_and!; [done|by apply relatorio_arquivadas_tudo|].
  unfold limpar_tarefas_excluidas_do_arquivo_de_arquivadas. cbn [fst].
  destruct (sessao opcs st).1 as [ts ar c]. cbn [TASKS ARCHIVED_TASKS ID_COUNTER] in *.
  f_equal. clear Ha. induction Hf' as [|x l Hx Hl IH]; [done|].
  by rewrite filter_cons_True, IH.
Qed.

(** ** Restarting from the files *)










(** ** The maintenance helper *)

Lemma filter_filter_mesmo {A} (P : A → Prop) `{!∀ x, Decision (P x)}
    (l : list A) :
  filter P (filter P l) = filter P l.
Proof.
  induction l as [|x l IH]; [done|]. rewrite filter_cons.
  case_decide; [|done]. by rewrite filter_cons_True, IH.
Qed.

(** X18: [limpar_tarefas_excluidas_do_arquivo_de_arquivadas] drops from the
    archive the tasks that are Excluída and nothing else: the others stay,
    in their order and as often as they were there, so what
    [relatorio_arquivadas] shows is the same before and after; the active
    tasks and the counter stay, both files are written, and a second call
    changes nothing. *)
Theorem limpar_mantem_relatorio st d :
  let r := limpar_tarefas_excluidas_do_arquivo_de_arquivadas st d in
  (relatorio_arquivadas r.1).2 = (relatorio_arquivadas st).2
  ∧ (∀ t, t ∈ ARCHIVED_TASKS r.1
          ↔ t ∈ ARCHIVED_TASKS st ∧ status t ≠ Excluida)
  ∧ ARCHIVED_TASKS r.1 `sublist_of` ARCHIVED_TASKS st
  ∧ TASKS r.1 = TASKS st ∧ ID_COUNTER r.1 = ID_COUNTER st
  ∧ r.2 = mk_disco (Json (TASKS st)) (Json (ARCHIVED_TASKS r.1))
  ∧ limpar_tarefas_excluidas_do_arquivo_de_arquivadas r.1 r.2 = r.
Proof.
  cbv zeta. unfold limpar_tarefas_excluidas_do_arquivo_de_arquivadas.
  cbn [fst snd TASKS ARCHIVED_TASKS ID_COUNTER salvar_dados].
  split_and!; [|intros t; rewrite list_elem_of_filter; tauto
              |apply sublist_filter|done..|].
  - unfold relatorio_arquivadas. cbv zeta. cbn [ARCHIVED_TASKS].
    rewrite filter_filter_mesmo. by destruct (filter _ _).
  - by rewrite filter_filter_mesmo.
Qed.

(** ** The choice typed at the menu *)

Lemma lstrip_espacos a s :
  Forall (λ c, isspace c = true) a → lstrip (a ++ s) = lstrip s.
Proof. induction 1 as [|c a Hc _ IH]; [done|]. cbn. by rewrite Hc. Qed.

Lemma lstrip_prefixo s :
  ∃ a, s = a ++ lstrip s ∧ Forall (λ c, isspace c = true) a.
Proof.
  induction s as [|c s (a & Hs & Ha)]; [by exists []|]. cbn [lstrip].
  destruct (isspace c) eqn:Hc; [|by exists []].
  exists (c :: a). split; [cbn; by f_equal|by constructor].
Qed.

Lemma Forall_rev_espacos (l : str) :
  Forall (λ c, isspace c = true) l → Forall (λ c, isspace c = true) (rev l).
Proof.
  induction 1 as [|c l Hc _ IH]; [done|]. cbn [rev]. apply Forall_app.
  split; [done|by constructor].
Qed.

Lemma opcao_valida_digito op :
  opcao_valida op = true ↔ ∃ c, op = [c] ∧ (48 ≤ c ≤ 57)%N.
Proof.
  unfold opcao_valida. rewrite bool_decide_eq_true. cbn [seq fmap list_fmap].
  unfold str_digito. cbn [Nat.add]. rewrite !elem_of_cons, elem_of_nil. split.
  - intros Hop.
    repeat (destruct Hop as [->|Hop]; [eexists; split; [done|lia]|]).
    done.
  - intros (c & -> & Hc).
    assert (c = 48 ∨ c = 49 ∨ c = 50 ∨ c = 51 ∨ c = 52 ∨ c = 53 ∨ c = 54
            ∨ c = 55 ∨ c = 56 ∨ c = 57)%N as Hcs by lia.
    repeat (destruct Hcs as [->|Hcs]; [tauto|]). subst c. tauto.
Qed.

(** X19: the loop of [main] strips the line typed and accepts it with
    [opcao_valida]: the lines accepted are exactly those made of one
    digit from 0 to 9 with any white space before and after it. *)
Theorem opcao_valida_strip entrada :
  opcao_valida (strip entrada) = true
  ↔ ∃ a c b, entrada = a ++ c :: b
       ∧ Forall (λ x, isspace x = true) a ∧ Forall (λ x, isspace x = true) b
       ∧ (48 ≤ c ≤ 57)%N.
Proof.
  rewrite opcao_valida_digito. unfold strip, rstrip. split.
  - intros (c & Hs & Hc).
    destruct (lstrip_prefixo entrada) as (a & He & Ha).
    apply (f_equal (@rev N)) in Hs. rewrite rev_involutive in Hs. cbn in Hs.
    destruct (lstrip_prefixo (rev (lstrip entrada))) as (b & Hb & Hbs).
    rewrite Hs in Hb. apply (f_equal (@rev N)) in Hb.
    rewrite rev_involutive, rev_app_distr in Hb. cbn in Hb.
    exists a, c, (rev b). split_and!; [congruence|done| |lia..].
    by apply Forall_rev_espacos.
  - intros (a & c & b & -> & Ha & Hb & Hc). exists c. split; [|done].
    assert (isspace c = false) as Hn.
    { assert (c = 48 ∨ c = 49 ∨ c = 50 ∨ c = 51 ∨ c = 52 ∨ c = 53 ∨ c = 54
              ∨ c = 55 ∨ c = 56 ∨ c = 57)%N as Hcs by lia.
      repeat (destruct Hcs as [->|Hcs]; [done|]). by subst c. }
    rewrite (lstrip_espacos a) by done. cbn [lstrip]. rewrite Hn.
    change (rev (c :: b)) with (rev b ++ [c]).
    rewrite lstrip_espacos by by apply Forall_rev_espacos.
    cbn [lstrip]. by rewrite Hn.
Qed.

(** ** From creation to completion *)

Lemma agora_iso_truthy agora :
  valid_datetime agora = true → truthy (Some (agora_iso agora)) = true.
Proof.
  intros Hv%parse_iso_agora_iso. unfold parse_iso in Hv. cbn [truthy].
  destruct (agora_iso agora) eqn:Heq; [|done].
  by rewrite fromisoformat_empty in Hv.
Qed.

(** X20: a task created at one time and completed at another shows the span
    between the two: when no active task has the counter as id, completing
    the id just created finds the new task, and its execution time is the
    whole seconds from creation to completion, split into days, hours,
    minutes and seconds; the days are negative exactly when the completion
    is before the creation, the other three never are. *)
Theorem tempo_execucao_criar_concluir criada concluida a b c d st st1 n :
  valid_datetime criada = true → valid_datetime concluida = true →
  (∀ t, t ∈ TASKS st → id t ≠ ID_COUNTER st) →
  criar_tarefa criada a b c d st = (st1, TarefaCriada n) →
  let r := concluir_tarefa concluida (Some n) st1 in
  ∃ t', r.2 = TarefaConcluida n (agora_iso concluida)
    ∧ encontrar_tarefa_por_id (TASKS r.1) n = Some (length (TASKS st), t')
    ∧ status t' = Concluida
    ∧ ∃ dias horas minutos segundos,
        tempo_execucao t' = Some (dias, horas, minutos, segundos)
        ∧ 0 ≤ horas < 24 ∧ 0 ≤ minutos < 60 ∧ 0 ≤ segundos < 60
        ∧ ((dias * 24 + horas) * 60 + minutos) * 60 + segundos
          = (dt_us concluida - dt_us criada) / 1000000
        ∧ (0 ≤ dias ↔ dt_us criada ≤ dt_us concluida).
Proof.
  intros Hv1 Hv2 Hnovo. cbv zeta.
  destruct status_diferentes as (_ & Hpc & _).
  destruct (criar_tarefa_casos criada a b c d st)
    as [(o & -> & Ho)|(t & -> & Hid & _ & _ & _ & _ & _ & _ & Hs & Hdc & _)].
  { intros [= _ ->]. by destruct (Ho n). }
  intros [= <- <-]. cbn [TASKS].
  assert (encontrar_tarefa_por_id (TASKS st ++ [t]) (ID_COUNTER st)
          = Some (length (TASKS st), t)) as Hf.
  { rewrite encontrar_snoc, (proj2 (encontrar_None _ _)) by done.
    by rewrite decide_True. }
  rewrite (concluir_tarefa_carimba concluida _ _ _ t) by (done || congruence).
  cbn [fst snd set_TASKS TASKS].
  exists (concluida_em (agora_iso concluida) t). split_and!; [done| |done|].
  { by apply encontrar_alter. }
  unfold tempo_execucao. cbn [concluida_em set_status set_data_conclusao
    data_conclusao data_criacao].
  rewrite agora_iso_truthy, Hdc by done.
  rewrite !parse_iso_agora_iso by done.
  unfold dt_sub, timedelta_of_us, divmod, dia_us. cbn [days seconds].
  set (x := dt_us concluida - dt_us criada).
  assert (dt_us criada ≤ dt_us concluida ↔ 0 ≤ x) as Hx by (unfold x; lia).
  clearbody x. eexists _, _, _, _. split; [done|]. rewrite Hx.
  split_and!; try (Z.div_mod_to_equations; lia).
Qed.

(** ** From completion to the archive *)


(** ** The report of the active tasks *)


End Complementos.

(** * Worked examples of the further properties *)

(** X4 at [ex_arquivo]: the task created gets the id 4 and is found at the
    end of the list. *)
Lemma criar_tarefa_encontrar_exemplo :
  let st' := (criar_tarefa ex_agora (u "Revisar contrato") (u "") (u "alta")
                (u "telefone") ex_arquivo).1 in
  (∀ t, t ∈ TASKS ex_arquivo → id t < ID_COUNTER ex_arquivo)
  ∧ ∃ t, encontrar_tarefa_por_id (TASKS st') 4 = Some (3%nat, t)
         ∧ ∀ t', t' ∈ TASKS st' → id t' < ID_COUNTER st'.
Proof.
  cbv zeta.
  assert (∀ t, t ∈ TASKS ex_arquivo → id t < ID_COUNTER ex_arquivo) as Hinv.
  { apply (proj1 (Forall_forall (λ t, id t < ID_COUNTER ex_arquivo) _)).
    compute_done. }
  assert (criar_tarefa ex_agora (u "Revisar contrato") (u "") (u "alta")
            (u "telefone") ex_arquivo
          = ((criar_tarefa ex_agora (u "Revisar contrato") (u "") (u "alta")
                (u "telefone") ex_arquivo).1, TarefaCriada 4)) as Hcria
    by by vm_compute.
  destruct (criar_tarefa_encontrar _ _ _ _ _ _ _ _ Hinv Hcria)
    as (t & _ & Hf & _ & Hlt).
  split; [done|]. by exists t.
Defined.

(** X5 at an id that only an archived task has. *)
Lemma id_desconhecido_exemplo :
  let st := mk_estado [ex_pendente] [ex_velha] 4 in
  (∀ t, t ∈ TASKS st → id t ≠ 1)
  ∧ id ex_velha = 1
  ∧ concluir_tarefa ex_agora (Some 1) st = (st, NaoEncontrada)
  ∧ excluir_tarefa (Some 1) st = (st, NaoEncontrada).
Proof.
  cbv zeta.
  assert (∀ t, t ∈ TASKS (mk_estado [ex_pendente] [ex_velha] 4) → id t ≠ 1)
    as Hn.
  { apply (proj1 (Forall_forall (λ t, id t ≠ 1) _)). compute_done. }
  destruct (id_desconhecido ex_agora (u "Alta") _ 1 Hn) as (_ & Hc & He).
  by split_and!.
Defined.


(** X7 at [ex_arquivo]: task 1, completed on 2024-01-01, is deleted and
    then completed again. *)
Lemma concluir_apos_excluir_exemplo :
  let st1 := (excluir_tarefa (Some 1) ex_arquivo).1 in
  let r := concluir_tarefa ex_agora (Some 1) st1 in
  encontrar_tarefa_por_id (TASKS ex_arquivo) 1 = Some (0%nat, ex_velha)
  ∧ data_conclusao ex_velha = Some (u "2024-01-01T00:00:00")
  ∧ r.2 = TarefaConcluida 1 (agora_iso ex_agora)
  ∧ encontrar_tarefa_por_id (TASKS r.1) 1
    = Some (0%nat, concluida_em (agora_iso ex_agora)
                     (set_status Excluida ex_velha)).
Proof.
  cbv zeta.
  assert (encontrar_tarefa_por_id (TASKS ex_arquivo) 1
          = Some (0%nat, ex_velha)) as Hf by by vm_compute.
  destruct (concluir_apos_excluir ex_agora ex_arquivo 1 0 ex_velha Hf)
    as (Ho & Hf' & _).
  by split_and!.
Defined.


(** X10 at [ex_arquivo]: task 1 would be archived on 2024-01-09; deleted
    first, it stays active. *)
Lemma excluir_impede_arquivamento_exemplo :
  let st1 := (excluir_tarefa (Some 1) ex_arquivo).1 in
  let st2 := (arquivar_tarefas_antigas ex_agora st1).1 in
  encontrar_tarefa_por_id (TASKS ex_arquivo) 1 = Some (0%nat, ex_velha)
  ∧ ex_velha ∈ ARCHIVED_TASKS (arquivar_tarefas_antigas ex_agora ex_arquivo).1
  ∧ set_status Excluida ex_velha ∈ TASKS st2.
Proof.
  cbv zeta.
  assert (encontrar_tarefa_por_id (TASKS ex_arquivo) 1
          = Some (0%nat, ex_velha)) as Hf by by vm_compute.
  destruct (excluir_impede_arquivamento ex_agora ex_arquivo 1 0 ex_velha Hf)
    as (_ & Hin & _).
  split_and!; [done| |done]. compute_done.
Defined.

(** X12 at [ex_urgencia]. *)
Lemma verificar_urgencia_sem_fallback_exemplo :
  (∀ t, t ∈ TASKS ex_urgencia → status t = Pendente →
     prioridade t ∈ PRIORITIES)
  ∧ (∃ t, t ∈ TASKS ex_urgencia ∧ status t = Pendente)
  ∧ ∃ it, primeira_por_prioridade PRIORITY_ORDER
            (pendentes_de (TASKS ex_urgencia)) = Some it
          ∧ seleciona ex_urgencia it.1 it.2.
Proof.
  assert (∀ t, t ∈ TASKS ex_urgencia → status t = Pendente →
            prioridade t ∈ PRIORITIES) as Hb.
  { apply (proj1 (Forall_forall
                    (λ t, status t = Pendente → prioridade t ∈ PRIORITIES) _)).
    compute_done. }
  assert (∃ t, t ∈ TASKS ex_urgencia ∧ status t = Pendente) as Hex.
  { exists (ex_tarefa 1 "Baixa" "Pendente" "2024-01-05T09:00:00" None).
    split; [compute_done|done]. }
  destruct (verificar_urgencia_sem_fallback ex_urgencia Hb Hex)
    as (it & Hsel & _ & _ & Hs).
  split_and!; [done..|]. by exists it.
Defined.

(** X14 at the session of [ex_opcoes]: the archived task is one that was
    loaded. *)
Lemma main_sucessoras_exemplo :
  let r := main [ex_pendente; ex_critica] [ex_velha] ex_agora ex_opcoes in
  ex_velha ∈ TASKS r.1 ++ ARCHIVED_TASKS r.1
  ∧ ∃ t, ((t ∈ [ex_pendente; ex_critica] ++ [ex_velha])
          ∨ recem_criada r.2 t)
         ∧ sucessora t ex_velha.
Proof.
  cbv zeta.
  assert (ex_velha
          ∈ TASKS (main [ex_pendente; ex_critica] [ex_velha] ex_agora
                     ex_opcoes).1
            ++ ARCHIVED_TASKS (main [ex_pendente; ex_critica] [ex_velha]
                                 ex_agora ex_opcoes).1) as Hin
    by compute_done.
  destruct (main_sucessoras [ex_pendente; ex_critica] [ex_velha] ex_agora
              ex_opcoes ex_velha Hin) as (t & Hor & Hs & _).
  split; [done|]. by exists t.
Defined.

(** X16 at [ex_arquivo], whose archive is empty, and one sweep. *)
Lemma relatorio_arquivadas_completo_exemplo :
  let st' := (sessao [Op5 ex_agora] ex_arquivo).1 in
  Forall (λ t, status t ≠ Excluida) (ARCHIVED_TASKS ex_arquivo)
  ∧ ARCHIVED_TASKS st' = [ex_velha]
  ∧ tarefas_exibidas (relatorio_arquivadas st').2 = ARCHIVED_TASKS st'.
Proof.
  cbv zeta.
  assert (Forall (λ t, status t ≠ Excluida) (ARCHIVED_TASKS ex_arquivo))
    as Hf by constructor.
  destruct (relatorio_arquivadas_completo [Op5 ex_agora] ex_arquivo
              (mk_disco Ausente Ausente) Hf) as (_ & Hr & _).
  split_and!; [done|by vm_compute|done].
Defined.

(** X20 at [ex_arquivo]: created on 2024-01-09 at 0:00, completed on
    2024-01-10 at 8:30. *)
Lemma tempo_execucao_criar_concluir_exemplo :
  let st1 := (criar_tarefa ex_agora (u "Revisar contrato") (u "") (u "alta")
                (u "telefone") ex_arquivo).1 in
  let r := concluir_tarefa ex_depois (Some 4) st1 in
  (∀ t, t ∈ TASKS ex_arquivo → id t ≠ ID_COUNTER ex_arquivo)
  ∧ ∃ t' dias horas minutos segundos,
      encontrar_tarefa_por_id (TASKS r.1) 4 = Some (3%nat, t')
      ∧ tempo_execucao t' = Some (dias, horas, minutos, segundos)
      ∧ ((dias * 24 + horas) * 60 + minutos) * 60 + segundos
        = (dt_us ex_depois - dt_us ex_agora) / 1000000.
Proof.
  cbv zeta.
  assert (∀ t, t ∈ TASKS ex_arquivo → id t ≠ ID_COUNTER ex_arquivo) as Hn.
  { apply (proj1 (Forall_forall (λ t, id t ≠ ID_COUNTER ex_arquivo) _)).
    compute_done. }
  assert (criar_tarefa ex_agora (u "Revisar contrato") (u "") (u "alta")
            (u "telefone") ex_arquivo
          = ((criar_tarefa ex_agora (u "Revisar contrato") (u "") (u "alta")
                (u "telefone") ex_arquivo).1, TarefaCriada 4)) as Hcria
    by by vm_compute.
  destruct (tempo_execucao_criar_concluir ex_agora ex_depois _ _ _ _ _ _ _
              eq_refl eq_refl Hn Hcria)
    as (t' & _ & Hf & _ & dias & horas & minutos & segundos & Ht & _ & _ & _
        & Hsoma & _).
  split; [done|]. by exists t', dias, horas, minutos, segundos.
Defined.



(** X11 at [ex_urgencia]: three pending tasks, three calls. *)
Lemma verificar_urgencia_esgota_exemplo :
  n_pendentes ex_urgencia = 3%nat
  ∧ n_pendentes (verificar_urgencia_vezes 3 ex_urgencia) = 0%nat
  ∧ verificar_urgencia (verificar_urgencia_vezes 3 ex_urgencia)
    = (verificar_urgencia_vezes 3 ex_urgencia, NaoHaPendentes).
Proof.
  assert (n_pendentes ex_urgencia = 3%nat) as Hn by by vm_compute.
  destruct (verificar_urgencia_esgota ex_urgencia) as (_ & _ & Hz & Hf).
  rewrite Hn in Hz, Hf. by split_and!.
Defined.

(** X13 at a session that creates, deletes, completes and archives. *)
Lemma main_bem_formada_exemplo :
  let r := main [ex_pendente] [ex_velha] ex_agora ex_opcoes in
  Forall bem_formada ([ex_pendente] ++ [ex_velha])
  ∧ Forall bem_formada (TASKS r.1 ++ ARCHIVED_TASKS r.1)
  ∧ length (TASKS r.1 ++ ARCHIVED_TASKS r.1) = 4%nat.
Proof.
  cbv zeta.
  assert (Forall bem_formada ([ex_pendente] ++ [ex_velha])) as Hb.
  { cbn [app]. repeat apply Forall_cons_2; [| |by apply Forall_nil];
      unfold bem_formada; split_and!; compute_done. }
  destruct (main_bem_formada [ex_pendente] [ex_velha] ex_agora ex_opcoes)
    as (Hm & _).
  split_and!; [done|by apply Hm|by vm_compute].
Defined.
